(** * pyechonest, [artist.py]: the lazy attribute cache and the query functions

    A shallow embedding of [src/artist.py].  Python values are a small
    inductive type, dictionaries are [gmap string _], and the methods and
    functions of the module are computations in a state-and-exception monad
    over the Artist's cache, a log of the remote calls made, and the state of
    the remote service. *)

From Stdlib Require Import ZArith QArith.
From stdpp Require Import gmap strings list fin_maps.

Set Warnings "-register-all".

Local Open Scope string_scope.
Local Open Scope Z_scope.

(** ** Python values *)

(** The decoded JSON structures and the argument values the module handles.
    A float is represented by its rational value. *)
Inductive value : Type :=
  | VNone
  | VBool (b : bool)
  | VInt (n : Z)
  | VFloat (q : Q)
  | VStr (s : string)
  | VList (l : list value)
  | VDict (d : gmap string value).

(** Python truth value testing ([if x:]). *)
Definition truthy (v : value) : bool :=
  match v with
  | VNone => false
  | VBool b => b
  | VInt n => negb (n =? 0)
  | VFloat q => negb (Qnum q =? 0)
  | VStr s => negb (String.eqb s "")
  | VList l => match l with [] => false | _ => true end
  | VDict d => negb (Nat.eqb (size d) 0)
  end.

(** [x or y] *)
Definition py_or (x y : value) : value := if truthy x then x else y.

(** [isinstance(x, list)] *)
Definition isinstance_list (x : value) : bool :=
  match x with VList _ => true | _ => false end.

(** ** Exceptions *)

(** What a call can raise: whatever the remote call raises (one opaque
    failure, carrying its message), and the local exceptions of the
    subscripts, attribute look-ups and iterations of the module. *)
Inductive exn : Type :=
  | RemoteError (msg : string)
  | KeyError (k : string)
  | TypeError
  | AttributeError.

Inductive result (A : Type) : Type :=
  | Ok (a : A)
  | Raise (e : exn).
Arguments Ok {A} a.
Arguments Raise {A} e.

(** [v[k]] with a string subscript: only a dict accepts it. *)
Definition getitem (v : value) (k : string) : result value :=
  match v with
  | VDict d => match d !! k with Some x => Ok x | None => Raise (KeyError k) end
  | _ => Raise TypeError
  end.

(** [v.get(k)]: a dict method, [None] for a missing key. *)
Definition get (v : value) (k : string) : result value :=
  match v with
  | VDict d => Ok (default VNone (d !! k))
  | _ => Raise AttributeError
  end.

(** [for a in v]: the elements of a list, the characters of a string, the
    keys of a dict (in the enumeration order of the map); the other values
    are not iterable. *)
Definition iter (v : value) : result (list value) :=
  match v with
  | VList l => Ok l
  | VStr s => Ok (map (fun c => VStr (String c EmptyString)) (Strings.String.list_ascii_of_string s))
  | VDict d => Ok (map (fun kv => VStr (fst kv)) (map_to_list d))
  | _ => Raise TypeError
  end.

(** [fix = lambda x : dict((str(k), v) for (k,v) in x.iteritems())]: the keys
    are strings already, so the copy has the same entries; [iteritems] is a
    dict method. *)
Definition fix_ (x : value) : result (gmap string value) :=
  match x with
  | VDict d => Ok d
  | _ => Raise AttributeError
  end.

(** A list comprehension whose element expression can raise: the elements are
    evaluated in order and the first exception ends the comprehension. *)
Fixpoint comprehension {A B : Type} (f : A -> result B) (l : list A) : result (list B) :=
  match l with
  | [] => Ok []
  | x :: l' =>
      match f x with
      | Raise e => Raise e
      | Ok y =>
          match comprehension f l' with
          | Raise e => Raise e
          | Ok ys => Ok (y :: ys)
          end
      end
  end.

(** ** The state and exception monad *)

Definition M (S A : Type) : Type := S -> result A * S.

Definition ret {S A : Type} (a : A) : M S A := fun s => (Ok a, s).

Definition bind {S A B : Type} (c : M S A) (k : A -> M S B) : M S B :=
  fun s =>
    match c s with
    | (Ok a, s') => k a s'
    | (Raise e, s') => (Raise e, s')
    end.

(** A pure expression that can raise, evaluated in the current state. *)
Definition eval {S A : Type} (r : result A) : M S A := fun s => (r, s).

Notation "x <- c ;; k" := (bind c (fun x => k))
  (at level 100, c at next level, right associativity).
Notation "c ;;; k" := (bind c (fun _ => k))
  (at level 100, right associativity).

(** ** Objects *)

(** Modelled from the spec: the [Result] class ([results.py], not under
    [src/]), "an immutable pairing of a kind label and the raw field mapping
    for one item". *)
Record Result : Type := mkResult { rtype : string; raw : value }.

(** An Artist object: its identifier, its name and its attribute cache. *)
Record Artist : Type := mkArtist {
  id : value;
  name : value;
  cache : gmap string value
}.

(** What leaves the module towards the remote service: an instance fetch
    [self.get_attribute(method, **kwargs)], with the identifier of [self], or
    a module-level [util.callm(path, kwargs)]. *)
Inductive request : Type :=
  | GetAttribute (self_id : value) (method : string) (kwargs : gmap string value)
  | Callm (path : string) (kwargs : gmap string value).

(** One entry of the log of remote calls: the request and what came back. *)
Record remote_call : Type := mkCall { rc_request : request; rc_reply : result value }.

(** ** A test service *)

(** A remote service to run the module against: it counts the requests it
    has served, answers the hotttnesss of an artist with that count, has a
    profile without foreign ids, one similar artist and two search results,
    and fails on everything else. *)
Definition test_service (rq : request) (w : nat) : result value * nat :=
  match rq with
  | GetAttribute _ method _ =>
      if String.eqb method "hotttnesss" then
        (Ok (VDict {[ "artist" := VDict {[ "hotttnesss" := VInt (Z.of_nat w) ]} ]}), S w)
      else if String.eqb method "profile" then
        (Ok (VDict {[ "artist" := VDict {[ "name" := VStr "The National" ]} ]}), S w)
      else if String.eqb method "similar" then
        (Ok (VDict {[ "artists" :=
               VList [VDict (<["id" := VStr "AR2"]> {[ "name" := VStr "Interpol" ]})] ]}), S w)
      else (Raise (RemoteError "unavailable"), S w)
  | Callm path _ =>
      if String.eqb path "artist/search" then
        (Ok (VDict {[ "response" := VDict {[ "artists" :=
               VList [VDict (<["id" := VStr "AR1"]> {[ "name" := VStr "The National" ]});
                      VDict (<["id" := VStr "AR3"]> {[ "name" := VStr "The Nationals" ]})] ]} ]}),
         S w)
      else (Raise (RemoteError "unavailable"), S w)
  end.

(** A constructor of the proxy class to run the module with: the name is the
    raw field ["name"], the other raw fields start the cache. *)
Definition test_ArtistProxy_init (i : value) (kwargs : gmap string value) : result Artist :=
  Ok {| id := i; name := default VNone (kwargs !! "name"); cache := delete "name" kwargs |}.

(** A second service, with the answers a client has to survive: audio that is
    no list, an artist structure without the hotttnesss, two reviews, a
    profile that has an entry ["audio"], a similar-artists list with a junk
    item, a search result whose second item has no id, a similarity answer
    without ["artists"], one top artist. *)
Definition odd_service (rq : request) (w : nat) : result value * nat :=
  match rq with
  | GetAttribute _ method _ =>
      if String.eqb method "audio" then
        (Ok (VDict {[ "audio" := VInt 5 ]}), S w)
      else if String.eqb method "hotttnesss" then
        (Ok (VDict {[ "artist" := VDict ∅ ]}), S w)
      else if String.eqb method "reviews" then
        (Ok (VDict {[ "reviews" :=
               VList [VDict {[ "url" := VStr "u1" ]}; VDict {[ "url" := VStr "u2" ]}] ]}), S w)
      else if String.eqb method "profile" then
        (Ok (VDict {[ "artist" :=
               VDict {[ "audio" := VList [VDict {[ "url" := VStr "u3" ]}] ]} ]}), S w)
      else if String.eqb method "similar" then
        (Ok (VDict {[ "artists" :=
               VList [VDict (<["id" := VStr "AR2"]> {[ "name" := VStr "Interpol" ]});
                      VStr "junk"] ]}), S w)
      else (Raise (RemoteError "unavailable"), S w)
  | Callm path _ =>
      if String.eqb path "artist/top_hottt" then
        (Ok (VDict {[ "response" := VDict {[ "artists" :=
               VList [VDict (<["id" := VStr "AR1"]> {[ "name" := VStr "The National" ]})] ]} ]}),
         S w)
      else if String.eqb path "artist/similar" then
        (Ok (VDict {[ "response" := VDict ∅ ]}), S w)
      else if String.eqb path "artist/search" then
        (Ok (VDict {[ "response" := VDict {[ "artists" :=
               VList [VDict (<["id" := VStr "AR1"]> {[ "name" := VStr "The National" ]});
                      VDict {[ "name" := VStr "Nobody" ]}] ]} ]}),
         S w)
      else (Raise (RemoteError "unavailable"), S w)
  end.

(** A third service, whose one artist has a raw field ["self"]. *)
Definition self_service (rq : request) (w : nat) : result value * nat :=
  (Ok (VDict {[ "response" := VDict {[ "artists" :=
         VList [VDict (<["id" := VStr "AR1"]>
                         (<["name" := VStr "The National"]> {[ "self" := VInt 1 ]}))] ]} ]}),
   S w).

Section ArtistModule.

(** The remote service: its state, and what it answers to a request.  It is
    the external collaborator behind [get_attribute] ([proxies.py]) and
    [util.callm] ([util.py]), neither under [src/]: it returns a decoded
    response or raises, and has no access to the objects of this module. *)
Variable W : Type.
Variable gateway : request -> W -> result value * W.

(** Modelled from the spec: the constructor of the proxy class
    ([ArtistProxy.__init__] in [proxies.py], not under [src/]), which builds
    the Artist from the identifier and the other raw fields ("each raw
    similar-entity structure is adapted into a full Entity, constructed from
    its raw field mapping"); it makes no remote call. *)
Variable ArtistProxy_init : value -> gmap string value -> result Artist.

(** The log of the remote calls made so far, and the state of the service. *)
Record network : Type := mkNetwork { calls : list remote_call; remote : W }.

(** What a method of an Artist runs in: the object and the network. *)
Record state : Type := mkState { self : Artist; net : network }.

(** One remote call: the service answers, and the call is logged. *)
Definition invoke (rq : request) : M network value :=
  fun n =>
    let '(r, w) := gateway rq (remote n) in
    (r, {| calls := calls n ++ [ {| rc_request := rq; rc_reply := r |} ]; remote := w |}).

(** [util.callm(path, kwargs)] *)
Definition callm (path : string) (kwargs : gmap string value) : M network value :=
  invoke (Callm path kwargs).

(** [self.get_attribute(method, **kwargs)] *)
Definition get_attribute (method : string) (kwargs : gmap string value) : M state value :=
  fun st =>
    let '(r, n) := invoke (GetAttribute (id (self st)) method kwargs) (net st) in
    (r, {| self := self st; net := n |}).

(** [k in self.cache] *)
Definition cache_contains (k : string) : M state bool :=
  fun st => (Ok (match cache (self st) !! k with Some _ => true | None => false end), st).

(** [self.cache[k] = v] *)
Definition cache_setitem (k : string) (v : value) : M state unit :=
  fun st =>
    (Ok tt,
     {| self := {| id := id (self st); name := name (self st);
                   cache := <[k := v]> (cache (self st)) |};
        net := net st |}).

(** [self.cache[k]] *)
Definition cache_getitem (k : string) : M state value :=
  fun st =>
    (match cache (self st) !! k with Some v => Ok v | None => Raise (KeyError k) end, st).

(** [self.cache.get(k)] *)
Definition cache_get (k : string) : M state value :=
  fun st => (Ok (default VNone (cache (self st) !! k)), st).

(** [Artist( **kwargs)]: [def __init__(self, id, **kwargs)] has the new
    object for [self], so an entry ["self"] is a second value for that
    parameter, a [TypeError]; it binds the entry ["id"] to the parameter
    [id], a [TypeError] without it; and it hands the rest to the constructor
    of the proxy class. *)
Definition Artist_init (kwargs : gmap string value) : result Artist :=
  match kwargs !! "self" with
  | Some _ => Raise TypeError
  | None =>
      match kwargs !! "id" with
      | None => Raise TypeError
      | Some i => ArtistProxy_init i (delete "id" kwargs)
      end
  end.

(** [Artist( **fix(a))] *)
Definition Artist_of (a : value) : result Artist :=
  match fix_ a with
  | Raise e => Raise e
  | Ok kw => Artist_init kw
  end.

(** [[Result(rtype, x) for x in v]] *)
Definition Results (rtype : string) (v : value) : result (list Result) :=
  match iter v with
  | Raise e => Raise e
  | Ok l => Ok (map (mkResult rtype) l)
  end.

(** [[Artist( **fix(a)) for a in v]] *)
Definition Artists (v : value) : result (list Artist) :=
  match iter v with
  | Raise e => Raise e
  | Ok l => comprehension Artist_of l
  end.

(** ** The methods of [Artist] *)

Definition get_hotttnesss (cache : bool) : M state value :=
  present <- cache_contains "hotttnesss" ;;
  (if negb (cache && present) then
     response <- get_attribute "hotttnesss" ∅ ;;
     artist <- eval (getitem response "artist") ;;
     v <- eval (getitem artist "hotttnesss") ;;
     cache_setitem "hotttnesss" v
   else ret tt) ;;;
  cache_getitem "hotttnesss".

Definition get_audio (results start : value) (cache : bool) : M state (list Result) :=
  present <- cache_contains "audio" ;;
  (if negb (cache && present) then
     response <- get_attribute "audio" (<["results" := results]> (<["start" := start]> ∅)) ;;
     v <- eval (getitem response "audio") ;;
     cache_setitem "audio" v
   else ret tt) ;;;
  v <- cache_getitem "audio" ;;
  eval (Results "audio" v).

Definition get_biographies (results start license : value) (cache : bool)
  : M state (list Result) :=
  present <- cache_contains "biographies" ;;
  (if negb (cache && present) then
     response <- get_attribute "biographies" (<["results" := results]> (<["start" := start]> ∅)) ;;
     v <- eval (getitem response "biographies") ;;
     cache_setitem "biographies" v
   else ret tt) ;;;
  v <- cache_getitem "biographies" ;;
  eval (Results "biography" v).

Definition get_blogs (results start : value) (cache : bool) : M state (list Result) :=
  present <- cache_contains "blogs" ;;
  (if negb (cache && present) then
     response <- get_attribute "blogs" (<["results" := results]> (<["start" := start]> ∅)) ;;
     v <- eval (getitem response "blogs") ;;
     cache_setitem "blogs" v
   else ret tt) ;;;
  v <- cache_getitem "blogs" ;;
  eval (Results "blogs" v).

Definition get_familiarity (cache : bool) : M state value :=
  present <- cache_contains "familiarity" ;;
  (if negb (cache && present) then
     response <- get_attribute "familiarity" ∅ ;;
     artist <- eval (getitem response "artist") ;;
     v <- eval (getitem artist "familiarity") ;;
     cache_setitem "familiarity" v
   else ret tt) ;;;
  cache_getitem "familiarity".

Definition get_images (results start license : value) (cache : bool)
  : M state (list Result) :=
  present <- cache_contains "images" ;;
  (if negb (cache && present) then
     response <- get_attribute "images" (<["results" := results]> (<["start" := start]> ∅)) ;;
     v <- eval (getitem response "images") ;;
     cache_setitem "images" v
   else ret tt) ;;;
  v <- cache_getitem "images" ;;
  eval (Results "image" v).

Definition get_news (results start : value) (cache : bool) : M state (list Result) :=
  present <- cache_contains "news" ;;
  (if negb (cache && present) then
     response <- get_attribute "news" (<["results" := results]> (<["start" := start]> ∅)) ;;
     v <- eval (getitem response "news") ;;
     cache_setitem "news" v
   else ret tt) ;;;
  v <- cache_getitem "news" ;;
  eval (Results "news" v).

Definition get_reviews (results start : value) (cache : bool) : M state (list Result) :=
  present <- cache_contains "reviews" ;;
  (if negb (cache && present) then
     response <- get_attribute "reviews" (<["results" := results]> (<["start" := start]> ∅)) ;;
     v <- eval (getitem response "reviews") ;;
     cache_setitem "reviews" v
   else ret tt) ;;;
  v <- cache_getitem "reviews" ;;
  eval (Results "review" v).

Definition get_similar (results start : value) (cache : bool)
    (max_familiarity min_familiarity max_hotttnesss min_hotttnesss buckets limit : value)
  : M state (list Artist) :=
  let buckets := py_or buckets (VList []) in
  let kwargs : gmap string value := ∅ in
  let kwargs := if truthy max_familiarity
                then <["max_familiarity" := max_familiarity]> kwargs else kwargs in
  let kwargs := if truthy min_familiarity
                then <["min_familiarity" := min_familiarity]> kwargs else kwargs in
  let kwargs := if truthy max_hotttnesss
                then <["max_hotttnesss" := max_hotttnesss]> kwargs else kwargs in
  let kwargs := if truthy min_hotttnesss
                then <["min_hotttnesss" := min_hotttnesss]> kwargs else kwargs in
  let kwargs := if truthy buckets then <["bucket" := buckets]> kwargs else kwargs in
  let kwargs := if truthy limit then <["limit" := VStr "true"]> kwargs else kwargs in
  present <- cache_contains "similar" ;;
  (if negb (cache && present) then
     response <- get_attribute "similar"
                   (<["results" := results]> (<["start" := start]> kwargs)) ;;
     v <- eval (getitem response "artists") ;;
     cache_setitem "similar" v
   else ret tt) ;;;
  v <- cache_getitem "similar" ;;
  eval (Artists v).

Definition get_urls (cache : bool) : M state Result :=
  present <- cache_contains "urls" ;;
  (if negb (cache && present) then
     response <- get_attribute "urls" ∅ ;;
     v <- eval (getitem response "urls") ;;
     cache_setitem "urls" v
   else ret tt) ;;;
  v <- cache_getitem "urls" ;;
  ret (mkResult "urls" v).

Definition get_video (results start : value) (cache : bool) : M state (list Result) :=
  present <- cache_contains "video" ;;
  (if negb (cache && present) then
     response <- get_attribute "video" (<["results" := results]> (<["start" := start]> ∅)) ;;
     v <- eval (getitem response "video") ;;
     cache_setitem "video" v
   else ret tt) ;;;
  v <- cache_getitem "video" ;;
  eval (Results "video" v).

Definition get_foreign_id (idspace : string) (cache : bool) : M state value :=
  present <- cache_contains idspace ;;
  (if negb (cache && present) then
     response <- get_attribute "profile"
                   (<["bucket" := VList [VStr ("id:" +:+ idspace)]]> ∅) ;;
     artist <- eval (getitem response "artist") ;;
     v <- eval (get artist idspace) ;;
     cache_setitem idspace v
   else ret tt) ;;;
  cache_get idspace.

(** ** The functions of the module *)

Definition search (name description results buckets limit exact sounds_like sort
    max_familiarity min_familiarity max_hotttnesss min_hotttnesss : value)
  : M network (list Artist) :=
  let buckets := py_or buckets (VList []) in
  let kwargs : gmap string value := ∅ in
  let kwargs := if truthy name then <["name" := name]> kwargs else kwargs in
  let kwargs := if truthy description then <["description" := description]> kwargs else kwargs in
  let kwargs := if truthy results then <["results" := results]> kwargs else kwargs in
  let kwargs := if truthy buckets then <["bucket" := buckets]> kwargs else kwargs in
  let kwargs := if truthy limit then <["limit" := VStr "true"]> kwargs else kwargs in
  let kwargs := if truthy exact then <["exact" := VStr "true"]> kwargs else kwargs in
  let kwargs := if truthy sounds_like then <["sounds_like" := VStr "true"]> kwargs else kwargs in
  let kwargs := if truthy max_familiarity
                then <["max_familiarity" := max_familiarity]> kwargs else kwargs in
  let kwargs := if truthy min_familiarity
                then <["min_familiarity" := min_familiarity]> kwargs else kwargs in
  let kwargs := if truthy max_hotttnesss
                then <["max_hotttnesss" := max_hotttnesss]> kwargs else kwargs in
  let kwargs := if truthy min_hotttnesss
                then <["min_hotttnesss" := min_hotttnesss]> kwargs else kwargs in
  let kwargs := if truthy sort then <["sort" := sort]> kwargs else kwargs in
  result <- callm ("artist" +:+ "/" +:+ "search") kwargs ;;
  response <- eval (getitem result "response") ;;
  artists <- eval (getitem response "artists") ;;
  eval (Artists artists).

Definition top_hottt (start results buckets limit : value) : M network (list Artist) :=
  let buckets := py_or buckets (VList []) in
  let kwargs : gmap string value := ∅ in
  let kwargs := if truthy start then <["start" := start]> kwargs else kwargs in
  let kwargs := if truthy results then <["results" := results]> kwargs else kwargs in
  let kwargs := if truthy buckets then <["bucket" := buckets]> kwargs else kwargs in
  let kwargs := if truthy limit then <["limit" := VStr "true"]> kwargs else kwargs in
  result <- callm ("artist" +:+ "/" +:+ "top_hottt") kwargs ;;
  response <- eval (getitem result "response") ;;
  artists <- eval (getitem response "artists") ;;
  eval (Artists artists).

Definition similar (names ids start results buckets limit
    max_familiarity min_familiarity max_hotttnesss min_hotttnesss : value)
  : M network (list Artist) :=
  let buckets := py_or buckets (VList []) in
  let kwargs : gmap string value := ∅ in
  let kwargs := if truthy ids
                then let ids := if negb (isinstance_list ids) then VList [ids] else ids in
                     <["id" := ids]> kwargs
                else kwargs in
  let kwargs := if truthy names
                then let names := if negb (isinstance_list names) then VList [names] else names in
                     <["name" := names]> kwargs
                else kwargs in
  let kwargs := if truthy max_familiarity
                then <["max_familiarity" := max_familiarity]> kwargs else kwargs in
  let kwargs := if truthy min_familiarity
                then <["min_familiarity" := min_familiarity]> kwargs else kwargs in
  let kwargs := if truthy max_hotttnesss
                then <["max_hotttnesss" := max_hotttnesss]> kwargs else kwargs in
  let kwargs := if truthy min_hotttnesss
                then <["min_hotttnesss" := min_hotttnesss]> kwargs else kwargs in
  let kwargs := if truthy start then <["start" := start]> kwargs else kwargs in
  let kwargs := if truthy results then <["results" := results]> kwargs else kwargs in
  let kwargs := if truthy buckets then <["bucket" := buckets]> kwargs else kwargs in
  let kwargs := if truthy limit then <["limit" := VStr "true"]> kwargs else kwargs in
  result <- callm ("artist" +:+ "/" +:+ "similar") kwargs ;;
  response <- eval (getitem result "response") ;;
  artists <- eval (getitem response "artists") ;;
  eval (Artists artists).

(** ** The lazy attributes, uniformly *)

(** The lazy attributes of an Artist; the foreign id is one attribute per id
    space. *)
Inductive attribute : Type :=
  | Hotttnesss | Audio | Biographies | Blogs | Familiarity | Images | News
  | Reviews | Similar | Urls | Video
  | ForeignId (idspace : string).

(** The arguments of the accessors other than [cache]; an accessor reads the
    ones it has. *)
Record arguments : Type := mkArguments {
  a_results : value;
  a_start : value;
  a_license : value;
  a_max_familiarity : value;
  a_min_familiarity : value;
  a_max_hotttnesss : value;
  a_min_hotttnesss : value;
  a_buckets : value;
  a_limit : value
}.

(** The defaults of the [def] lines. *)
Definition default_arguments : arguments :=
  {| a_results := VInt 15; a_start := VInt 0; a_license := VStr "unknown";
     a_max_familiarity := VNone; a_min_familiarity := VNone;
     a_max_hotttnesss := VNone; a_min_hotttnesss := VNone;
     a_buckets := VNone; a_limit := VBool false |}.

(** What an accessor returns. *)
Inductive returned : Type :=
  | RValue (v : value)
  | RResult (r : Result)
  | RResults (l : list Result)
  | RArtists (l : list Artist).

(** The call [self.get_<a>(..., cache=cache)]. *)
Definition call (a : attribute) (args : arguments) (cache : bool) : M state returned :=
  match a with
  | Hotttnesss => v <- get_hotttnesss cache ;; ret (RValue v)
  | Audio => l <- get_audio (a_results args) (a_start args) cache ;; ret (RResults l)
  | Biographies =>
      l <- get_biographies (a_results args) (a_start args) (a_license args) cache ;;
      ret (RResults l)
  | Blogs => l <- get_blogs (a_results args) (a_start args) cache ;; ret (RResults l)
  | Familiarity => v <- get_familiarity cache ;; ret (RValue v)
  | Images =>
      l <- get_images (a_results args) (a_start args) (a_license args) cache ;;
      ret (RResults l)
  | News => l <- get_news (a_results args) (a_start args) cache ;; ret (RResults l)
  | Reviews => l <- get_reviews (a_results args) (a_start args) cache ;; ret (RResults l)
  | Similar =>
      l <- get_similar (a_results args) (a_start args) cache
             (a_max_familiarity args) (a_min_familiarity args)
             (a_max_hotttnesss args) (a_min_hotttnesss args)
             (a_buckets args) (a_limit args) ;;
      ret (RArtists l)
  | Urls => r <- get_urls cache ;; ret (RResult r)
  | Video => l <- get_video (a_results args) (a_start args) cache ;; ret (RResults l)
  | ForeignId idspace => v <- get_foreign_id idspace cache ;; ret (RValue v)
  end.

(** The key an attribute is cached under. *)
Definition cache_key (a : attribute) : string :=
  match a with
  | Hotttnesss => "hotttnesss"
  | Audio => "audio"
  | Biographies => "biographies"
  | Blogs => "blogs"
  | Familiarity => "familiarity"
  | Images => "images"
  | News => "news"
  | Reviews => "reviews"
  | Similar => "similar"
  | Urls => "urls"
  | Video => "video"
  | ForeignId idspace => idspace
  end.

(** The sub-structure of a response that is the raw value of an attribute. *)
Definition extract (a : attribute) (response : value) : result value :=
  match a with
  | Hotttnesss =>
      match getitem response "artist" with
      | Ok artist => getitem artist "hotttnesss"
      | Raise e => Raise e
      end
  | Familiarity =>
      match getitem response "artist" with
      | Ok artist => getitem artist "familiarity"
      | Raise e => Raise e
      end
  | Similar => getitem response "artists"
  | ForeignId idspace =>
      match getitem response "artist" with
      | Ok artist => get artist idspace
      | Raise e => Raise e
      end
  | _ => getitem response (cache_key a)
  end.

(** The raw value of an attribute, adapted to what the caller gets. *)
Definition adapt (a : attribute) (v : value) : result returned :=
  let results rtype :=
    match Results rtype v with Ok l => Ok (RResults l) | Raise e => Raise e end in
  match a with
  | Hotttnesss | Familiarity | ForeignId _ => Ok (RValue v)
  | Audio => results "audio"
  | Biographies => results "biography"
  | Blogs => results "blogs"
  | Images => results "image"
  | News => results "news"
  | Reviews => results "review"
  | Video => results "video"
  | Urls => Ok (RResult (mkResult "urls" v))
  | Similar => match Artists v with Ok l => Ok (RArtists l) | Raise e => Raise e end
  end.

(** The state after a remote call has been logged. *)
Definition logged (st : state) (rq : request) (r : result value) (w : W) : state :=
  {| self := self st;
     net := {| calls := calls (net st) ++ [ {| rc_request := rq; rc_reply := r |} ];
               remote := w |} |}.

(** The state after [self.cache[k] = v]. *)
Definition stored (k : string) (v : value) (st : state) : state :=
  {| self := {| id := id (self st); name := name (self st);
                cache := <[k := v]> (cache (self st)) |};
     net := net st |}.

(** ** How one accessor call runs *)

(** The outcome of a call that finds its attribute cached. *)
Definition hit_outcome (a : attribute) (v : value) (st : state) : result returned * state :=
  (adapt a v, st).

(** The outcome of a call that goes to the remote service with request [rq]. *)
Definition miss_outcome (a : attribute) (rq : request) (st : state)
  : result returned * state :=
  let '(r, w) := gateway rq (remote (net st)) in
  match r with
  | Raise e => (Raise e, logged st rq r w)
  | Ok response =>
      match extract a response with
      | Raise e => (Raise e, logged st rq r w)
      | Ok v => (adapt a v, stored (cache_key a) v (logged st rq r w))
      end
  end.

(** ** Histories of accessor calls *)

(** One accessor call, and what was observed of it: the remote calls made
    while it ran, and its outcome. *)
Record invocation : Type := mkInvocation {
  i_attribute : attribute;
  i_arguments : arguments;
  i_cache : bool
}.

Record event : Type := mkEvent {
  e_invocation : invocation;
  e_calls : list remote_call;
  e_outcome : result returned
}.

Definition step (i : invocation) (st : state) : event * state :=
  let '(r, st') := call (i_attribute i) (i_arguments i) (i_cache i) st in
  ({| e_invocation := i;
      e_calls := drop (length (calls (net st))) (calls (net st'));
      e_outcome := r |}, st').

Fixpoint run (h : list invocation) (st : state) : list event * state :=
  match h with
  | [] => ([], st)
  | i :: h' =>
      let '(ev, st1) := step i st in
      let '(evs, st2) := run h' st1 in
      (ev :: evs, st2)
  end.

(** A newly constructed Artist with an empty cache, before any remote call. *)
Definition fresh (i n : value) (w : W) : state :=
  {| self := {| id := i; name := n; cache := ∅ |};
     net := {| calls := []; remote := w |} |}.

(** "The corresponding accessor has been called with caching enabled and the
    remote call succeeded". *)
Definition fetched_with_caching (a : attribute) (ev : event) : Prop :=
  i_attribute (e_invocation ev) = a /\
  i_cache (e_invocation ev) = true /\
  exists rq response, mkCall rq (Ok response) ∈ e_calls ev.

(** The invariant of the cache as the specification words it. *)
Definition cache_invariant_as_stated (h : list invocation) (st : state) (a : attribute) : Prop :=
  is_Some (cache (self (snd (run h st))) !! cache_key a) <->
  Exists (fetched_with_caching a) (fst (run h st)).

(** An accessor that caches under key [k] has been called, with caching
    enabled or not, its remote call succeeded, and the response held the
    sub-structure the accessor extracts. *)
Definition fetched_and_stored (k : string) (ev : event) : Prop :=
  cache_key (i_attribute (e_invocation ev)) = k /\
  exists rq response v,
    mkCall rq (Ok response) ∈ e_calls ev /\
    extract (i_attribute (e_invocation ev)) response = Ok v.

(** ** Outgoing requests *)

(** The requests a function of the module sends from network state [n]. *)
Definition sent {A : Type} (c : M network A) (n : network) : list request :=
  map rc_request (drop (length (calls n)) (calls (snd (c n)))).

(** The requests a method sends from state [st]. *)
Definition sent_by {A : Type} (c : M state A) (st : state) : list request :=
  map rc_request (drop (length (calls (net st))) (calls (net (snd (c st))))).

(** An optional argument in a request: present when it is truthy. *)
Definition when (v : value) : option value := if truthy v then Some v else None.

(** A boolean flag in a request: the string ["true"] when it is truthy. *)
Definition flag (v : value) : option value :=
  if truthy v then Some (VStr "true") else None.

(** A name or an id, or a list of them, in a request: a list. *)
Definition listed (v : value) : option value :=
  if truthy v then Some (if negb (isinstance_list v) then VList [v] else v) else None.

(** The entry under key [k] of the request of [search]. *)
Definition search_params (name description results buckets limit exact sounds_like sort
    max_familiarity min_familiarity max_hotttnesss min_hotttnesss : value) (k : string)
  : option value :=
  if String.eqb k "name" then when name
  else if String.eqb k "description" then when description
  else if String.eqb k "results" then when results
  else if String.eqb k "bucket" then when buckets
  else if String.eqb k "limit" then flag limit
  else if String.eqb k "exact" then flag exact
  else if String.eqb k "sounds_like" then flag sounds_like
  else if String.eqb k "max_familiarity" then when max_familiarity
  else if String.eqb k "min_familiarity" then when min_familiarity
  else if String.eqb k "max_hotttnesss" then when max_hotttnesss
  else if String.eqb k "min_hotttnesss" then when min_hotttnesss
  else if String.eqb k "sort" then when sort
  else None.

(** The entry under key [k] of the request of [top_hottt]. *)
Definition top_hottt_params (start results buckets limit : value) (k : string)
  : option value :=
  if String.eqb k "start" then when start
  else if String.eqb k "results" then when results
  else if String.eqb k "bucket" then when buckets
  else if String.eqb k "limit" then flag limit
  else None.

(** The entry under key [k] of the request of [similar]. *)
Definition similar_params (names ids start results buckets limit
    max_familiarity min_familiarity max_hotttnesss min_hotttnesss : value) (k : string)
  : option value :=
  if String.eqb k "id" then listed ids
  else if String.eqb k "name" then listed names
  else if String.eqb k "max_familiarity" then when max_familiarity
  else if String.eqb k "min_familiarity" then when min_familiarity
  else if String.eqb k "max_hotttnesss" then when max_hotttnesss
  else if String.eqb k "min_hotttnesss" then when min_hotttnesss
  else if String.eqb k "start" then when start
  else if String.eqb k "results" then when results
  else if String.eqb k "bucket" then when buckets
  else if String.eqb k "limit" then flag limit
  else None.

(** The entry under key [k] of the request of [get_similar], which always
    carries [results] and [start]. *)
Definition get_similar_params (results start
    max_familiarity min_familiarity max_hotttnesss min_hotttnesss buckets limit : value)
    (k : string) : option value :=
  if String.eqb k "results" then Some results
  else if String.eqb k "start" then Some start
  else if String.eqb k "max_familiarity" then when max_familiarity
  else if String.eqb k "min_familiarity" then when min_familiarity
  else if String.eqb k "max_hotttnesss" then when max_hotttnesss
  else if String.eqb k "min_hotttnesss" then when min_hotttnesss
  else if String.eqb k "bucket" then when buckets
  else if String.eqb k "limit" then flag limit
  else None.

(** *** A call of [search] as the caller writes it *)

(** The arguments the caller supplies; the others take the defaults of the
    [def] line. *)
Record search_arguments : Type := mkSearch {
  s_name : option value;
  s_description : option value;
  s_results : option value;
  s_buckets : option value;
  s_limit : option value;
  s_exact : option value;
  s_sounds_like : option value;
  s_sort : option value;
  s_max_familiarity : option value;
  s_min_familiarity : option value;
  s_max_hotttnesss : option value;
  s_min_hotttnesss : option value
}.

Definition search_call (a : search_arguments) : M network (list Artist) :=
  search (default VNone (s_name a)) (default VNone (s_description a))
         (default (VInt 15) (s_results a)) (default VNone (s_buckets a))
         (default (VBool false) (s_limit a)) (default (VBool false) (s_exact a))
         (default (VBool false) (s_sounds_like a)) (default VNone (s_sort a))
         (default VNone (s_max_familiarity a)) (default VNone (s_min_familiarity a))
         (default VNone (s_max_hotttnesss a)) (default VNone (s_min_hotttnesss a)).

(** The supplied argument that the request key [k] stands for. *)
Definition supplied (a : search_arguments) (k : string) : option value :=
  if String.eqb k "name" then s_name a
  else if String.eqb k "description" then s_description a
  else if String.eqb k "results" then s_results a
  else if String.eqb k "bucket" then s_buckets a
  else if String.eqb k "limit" then s_limit a
  else if String.eqb k "exact" then s_exact a
  else if String.eqb k "sounds_like" then s_sounds_like a
  else if String.eqb k "max_familiarity" then s_max_familiarity a
  else if String.eqb k "min_familiarity" then s_min_familiarity a
  else if String.eqb k "max_hotttnesss" then s_max_hotttnesss a
  else if String.eqb k "min_hotttnesss" then s_min_hotttnesss a
  else if String.eqb k "sort" then s_sort a
  else None.

(** "The request holds entries for only the supplied arguments". *)
Definition only_supplied_as_stated (a : search_arguments) (n : network) : Prop :=
  forall path kwargs k,
    sent (search_call a) n = [Callm path kwargs] ->
    is_Some (kwargs !! k) -> is_Some (supplied a k).

(** "[similar(ids=X)] and [similar(ids=[X])] build the same request", for a
    string [X] and whatever the other arguments are. *)
Definition ids_scalar_as_list (X : string) (n : network) : Prop :=
  forall names start results buckets limit
         max_familiarity min_familiarity max_hotttnesss min_hotttnesss,
    sent (similar names (VStr X) start results buckets limit
            max_familiarity min_familiarity max_hotttnesss min_hotttnesss) n =
    sent (similar names (VList [VStr X]) start results buckets limit
            max_familiarity min_familiarity max_hotttnesss min_hotttnesss) n.

(** The same for [names]. *)
Definition names_scalar_as_list (X : string) (n : network) : Prop :=
  forall ids start results buckets limit
         max_familiarity min_familiarity max_hotttnesss min_hotttnesss,
    sent (similar (VStr X) ids start results buckets limit
            max_familiarity min_familiarity max_hotttnesss min_hotttnesss) n =
    sent (similar (VList [VStr X]) ids start results buckets limit
            max_familiarity min_familiarity max_hotttnesss min_hotttnesss) n.

(** ** The attributes as properties *)

(** [hotttnesss = property(get_hotttnesss)] and the like: reading the
    attribute calls the accessor with the defaults of its [def] line. *)
Definition Artist_hotttnesss : M state value := get_hotttnesss true.
Definition Artist_audio : M state (list Result) := get_audio (VInt 15) (VInt 0) true.
Definition Artist_biographies : M state (list Result) :=
  get_biographies (VInt 15) (VInt 0) (VStr "unknown") true.
Definition Artist_blogs : M state (list Result) := get_blogs (VInt 15) (VInt 0) true.
Definition Artist_familiarity : M state value := get_familiarity true.
Definition Artist_images : M state (list Result) :=
  get_images (VInt 15) (VInt 0) (VStr "unknown") true.
Definition Artist_news : M state (list Result) := get_news (VInt 15) (VInt 0) true.
Definition Artist_reviews : M state (list Result) := get_reviews (VInt 15) (VInt 0) true.
Definition Artist_similar : M state (list Artist) :=
  get_similar (VInt 15) (VInt 0) true VNone VNone VNone VNone VNone (VBool false).
Definition Artist_urls : M state Result := get_urls true.
Definition Artist_video : M state (list Result) := get_video (VInt 15) (VInt 0) true.

(** Reading the property of an attribute; the foreign ids have none. *)
Definition property (a : attribute) : option (M state returned) :=
  match a with
  | Hotttnesss => Some (v <- Artist_hotttnesss ;; ret (RValue v))
  | Audio => Some (l <- Artist_audio ;; ret (RResults l))
  | Biographies => Some (l <- Artist_biographies ;; ret (RResults l))
  | Blogs => Some (l <- Artist_blogs ;; ret (RResults l))
  | Familiarity => Some (v <- Artist_familiarity ;; ret (RValue v))
  | Images => Some (l <- Artist_images ;; ret (RResults l))
  | News => Some (l <- Artist_news ;; ret (RResults l))
  | Reviews => Some (l <- Artist_reviews ;; ret (RResults l))
  | Similar => Some (l <- Artist_similar ;; ret (RArtists l))
  | Urls => Some (r <- Artist_urls ;; ret (RResult r))
  | Video => Some (l <- Artist_video ;; ret (RResults l))
  | ForeignId _ => None
  end.

(** ** What the accessors ask the service *)

(** The method an accessor fetches: its attribute, the profile for a foreign
    id. *)
Definition request_method (a : attribute) : string :=
  match a with
  | ForeignId _ => "profile"
  | _ => cache_key a
  end.

(** The keyword arguments an accessor fetches with. *)
Definition request_kwargs (a : attribute) (args : arguments) (kwargs : gmap string value)
  : Prop :=
  match a with
  | Hotttnesss | Familiarity | Urls => kwargs = ∅
  | ForeignId idspace => kwargs = {[ "bucket" := VList [VStr ("id:" +:+ idspace)] ]}
  | Similar =>
      forall k, kwargs !! k =
                get_similar_params (a_results args) (a_start args)
                  (a_max_familiarity args) (a_min_familiarity args)
                  (a_max_hotttnesss args) (a_min_hotttnesss args)
                  (a_buckets args) (a_limit args) k
  | _ => kwargs = <["results" := a_results args]> (<["start" := a_start args]> ∅)
  end.

(** The kind label of the documents of a list-valued attribute. *)
Definition result_label (a : attribute) : option string :=
  match a with
  | Audio => Some "audio"
  | Biographies => Some "biography"
  | Blogs => Some "blogs"
  | Images => Some "image"
  | News => Some "news"
  | Reviews => Some "review"
  | Video => Some "video"
  | _ => None
  end.

(** ** What the functions of the module do with the answer *)

(** [[Artist( **fix(a_dict)) for a_dict in result['response']['artists']]] *)
Definition adopt : value -> result (list Artist) := fun result =>
  match getitem result "response" with
  | Raise e => Raise e
  | Ok response =>
      match getitem response "artists" with
      | Raise e => Raise e
      | Ok artists => Artists artists
      end
  end.

(** One remote call at [path] with [kwargs], and the Artists of its answer. *)
Definition query_outcome (path : string) (kwargs : gmap string value) (n : network)
  : result (list Artist) * network :=
  let '(r, w) := gateway (Callm path kwargs) (remote n) in
  (match r with Ok result => adopt result | Raise e => Raise e end,
   {| calls := calls n ++ [mkCall (Callm path kwargs) r]; remote := w |}).

(** The remote call of a function of the module was answered with [result]. *)
Definition answered {A : Type} (c : M network A) (n : network) (result : value) : Prop :=
  exists rq, calls (snd (c n)) = (calls n ++ [mkCall rq (Ok result)])%list.

(** The remote call of a function of the module raised [e]. *)
Definition failed {A : Type} (c : M network A) (n : network) (e : exn) : Prop :=
  exists rq, calls (snd (c n)) = (calls n ++ [mkCall rq (Raise e)])%list.

(** The keyword arguments of the fetch behind a property. *)
Definition property_kwargs (a : attribute) : gmap string value :=
  match a with
  | Hotttnesss | Familiarity | Urls | ForeignId _ => ∅
  | _ => <["results" := VInt 15]> (<["start" := VInt 0]> ∅)
  end.

(** The functions of the module, uniformly: a call of one of them. *)
Inductive query : Type :=
  | QSearch (name description results buckets limit exact sounds_like sort
             max_familiarity min_familiarity max_hotttnesss min_hotttnesss : value)
  | QTopHottt (start results buckets limit : value)
  | QSimilar (names ids start results buckets limit
              max_familiarity min_familiarity max_hotttnesss min_hotttnesss : value).

Definition ask (q : query) : M network (list Artist) :=
  match q with
  | QSearch nm description results buckets limit exact sounds_like sort
      max_familiarity min_familiarity max_hotttnesss min_hotttnesss =>
      search nm description results buckets limit exact sounds_like sort
        max_familiarity min_familiarity max_hotttnesss min_hotttnesss
  | QTopHottt start results buckets limit => top_hottt start results buckets limit
  | QSimilar names ids start results buckets limit
      max_familiarity min_familiarity max_hotttnesss min_hotttnesss =>
      similar names ids start results buckets limit
        max_familiarity min_familiarity max_hotttnesss min_hotttnesss
  end.

(** The resource a function of the module calls. *)
Definition query_path (q : query) : string :=
  match q with
  | QSearch _ _ _ _ _ _ _ _ _ _ _ _ => "artist/search"
  | QTopHottt _ _ _ _ => "artist/top_hottt"
  | QSimilar _ _ _ _ _ _ _ _ _ _ => "artist/similar"
  end.

(** The entry under key [k] of its request. *)
Definition query_params (q : query) (k : string) : option value :=
  match q with
  | QSearch nm description results buckets limit exact sounds_like sort
      max_familiarity min_familiarity max_hotttnesss min_hotttnesss =>
      search_params nm description results buckets limit exact sounds_like sort
        max_familiarity min_familiarity max_hotttnesss min_hotttnesss k
  | QTopHottt start results buckets limit =>
      top_hottt_params start results buckets limit k
  | QSimilar names ids start results buckets limit
      max_familiarity min_familiarity max_hotttnesss min_hotttnesss =>
      similar_params names ids start results buckets limit
        max_familiarity min_familiarity max_hotttnesss min_hotttnesss k
  end.

(** ** Properties *)

Lemma call_hit a args v st :
  cache (self st) !! cache_key a = Some v ->
  call a args true st = hit_outcome a v st.
Proof.
  intros Hk. unfold hit_outcome.
  destruct a; cbn -[Results Artists] in *;
    unfold bind, cache_contains, cache_getitem, cache_get, eval, ret;
    cbn -[Results Artists]; repeat (rewrite !Hk; cbn -[Results Artists]);
    try reflexivity;
    match goal with
    | |- context [Results ?k ?x] => destruct (Results k x); reflexivity
    | |- context [Artists ?x] => destruct (Artists x); reflexivity
    end.
Qed.

Lemma call_miss a args c st :
  c = false \/ cache (self st) !! cache_key a = None ->
  exists method kwargs,
    call a args c st = miss_outcome a (GetAttribute (id (self st)) method kwargs) st.
Proof.
  intros Hmiss.
  assert (Hc : negb (c && match cache (self st) !! cache_key a with
                          | Some _ => true | None => false end) = true).
  { destruct Hmiss as [-> | ->]; [reflexivity | by destruct c]. }
  clear Hmiss.
  destruct a; unfold miss_outcome;
    cbn -[Results Artists] in *;
    unfold bind, cache_contains; cbn -[Results Artists]; rewrite Hc;
    unfold get_attribute, invoke, bind, eval, ret, cache_setitem, cache_getitem, cache_get;
    cbn -[Results Artists];
    match goal with
    | |- context [gateway (GetAttribute _ ?m ?k) _] => exists m, k
    end;
    match goal with
    | |- context [gateway ?rq ?w] => destruct (gateway rq w) as [[response|e] w']
    end; cbn -[Results Artists]; try reflexivity;
    repeat match goal with
      | |- context [match getitem ?x ?k with _ => _ end] =>
          destruct (getitem x k); cbn -[Results Artists]
      | |- context [match get ?x ?k with _ => _ end] =>
          destruct (get x k); cbn -[Results Artists]
      end;
    rewrite ?lookup_insert_eq; cbn -[Results Artists]; try reflexivity;
    match goal with
    | |- context [Results ?k ?x] => destruct (Results k x); reflexivity
    | |- context [Artists ?x] => destruct (Artists x); reflexivity
    end.
Qed.

(** What a call leaves in the cache and the log, whichever way it runs. *)
Lemma call_cases a args c st :
  (exists v, c = true /\ cache (self st) !! cache_key a = Some v /\
             call a args c st = hit_outcome a v st) \/
  (exists method kwargs,
     (c = false \/ cache (self st) !! cache_key a = None) /\
     call a args c st = miss_outcome a (GetAttribute (id (self st)) method kwargs) st).
Proof.
  destruct c.
  - destruct (cache (self st) !! cache_key a) as [v|] eqn:Hk.
    + left. exists v. eauto using call_hit.
    + right. destruct (call_miss a args true st) as (m & kw & H); [by right|].
      exists m, kw. split; [by right | done].
  - right. destruct (call_miss a args false st) as (m & kw & H); [by left|].
    exists m, kw. split; [by left | done].
Qed.

Lemma stored_lookup k v st : cache (self (stored k v st)) !! k = Some v.
Proof. apply lookup_insert_eq. Qed.

(** C1: once [get_A(cache=True)] has succeeded, the raw value of the
    attribute is in the cache under its key, and what the call returned is
    that value adapted; a second call with [cache=True] (whatever its other
    arguments) returns the cached value adapted, which is the same data, and
    leaves the state as it was: nothing is sent and the log of remote calls
    is unchanged, so no further remote call is made. *)
Theorem second_cached_call_makes_no_remote_call a args1 args2 st r st' :
  call a args1 true st = (Ok r, st') ->
  exists v,
    cache (self st') !! cache_key a = Some v /\
    adapt a v = Ok r /\
    call a args2 true st' = (adapt a v, st') /\
    call a args2 true st' = (Ok r, st') /\
    sent_by (call a args2 true) st' = [].
Proof.
  intros H1.
  assert (Hv : exists v, cache (self st') !! cache_key a = Some v /\ adapt a v = Ok r).
  { destruct (call_cases a args1 true st) as [(v & _ & Hk & H) | (m & kw & _ & H)];
      rewrite H in H1.
    - unfold hit_outcome in H1. injection H1 as Ha <-. eauto.
    - unfold miss_outcome in H1.
      destruct (gateway _ _) as [[response|e] w]; [|discriminate].
      destruct (extract a response) as [v|e]; [|discriminate].
      injection H1 as Ha <-. exists v. split; [apply stored_lookup | done]. }
  destruct Hv as (v & Hk & Ha). exists v.
  pose proof (call_hit a args2 v st' Hk) as Hhit. unfold hit_outcome in Hhit.
  split; [done|]. split; [done|]. split; [done|]. split; [by rewrite Hhit, Ha|].
  unfold sent_by. rewrite Hhit. cbn. by rewrite drop_all.
Qed.

(** C2: a call with [cache=False] makes exactly one remote call, whatever the
    cache holds; and when the service answers and the response holds the
    attribute's sub-structure, that value is written over [cache[A]]. *)
Theorem uncached_call_refetches_and_overwrites a args st :
  exists rq reply,
    gateway rq (remote (net st)) = (reply, remote (net (snd (call a args false st)))) /\
    calls (net (snd (call a args false st))) = (calls (net st) ++ [mkCall rq reply])%list /\
    forall response v,
      reply = Ok response -> extract a response = Ok v ->
      cache (self (snd (call a args false st))) = <[cache_key a := v]> (cache (self st)).
Proof.
  destruct (call_miss a args false st) as (m & kw & H); [by left|].
  rewrite H. unfold miss_outcome.
  exists (GetAttribute (id (self st)) m kw).
  destruct (gateway _ _) as [[response|e] w] eqn:Hg.
  - exists (Ok response).
    destruct (extract a response) as [v|e] eqn:He; cbn; (split; [done|]); (split; [done|]).
    + intros ? ? [= <-] Hv. rewrite He in Hv. by injection Hv as <-.
    + intros ? ? [= <-] Hv. rewrite He in Hv. discriminate.
  - exists (Raise e). cbn. split; [done|]. split; [done|]. intros ? ? [=].
Qed.

(** C3: when the remote call of an accessor raises, the accessor raises the
    same exception and the Artist, its cache included, is as it was. *)
Theorem remote_failure_propagates_and_keeps_cache a args c st rq e :
  calls (net (snd (call a args c st))) = (calls (net st) ++ [mkCall rq (Raise e)])%list ->
  fst (call a args c st) = Raise e /\
  self (snd (call a args c st)) = self st.
Proof.
  destruct (call_cases a args c st) as [(v & _ & Hk & H) | (m & kw & _ & H)];
    rewrite H.
  - unfold hit_outcome. cbn. intros Hl.
    apply (f_equal length) in Hl. rewrite length_app in Hl. cbn in Hl. lia.
  - unfold miss_outcome.
    destruct (gateway _ _) as [[response|e'] w].
    + destruct (extract a response); cbn; intros Hl;
        apply app_inv_head in Hl; discriminate.
    + cbn. intros Hl. apply app_inv_head in Hl. by injection Hl as _ ->.
Qed.

(** *** The cache along a history of calls *)

Lemma step_invocation i st : e_invocation (fst (step i st)) = i.
Proof. unfold step. by destruct (call _ _ _ _). Qed.

(** One call either leaves the cache alone, and is then no successful fetch,
    or is a successful fetch and writes the fetched value under its key. *)
Lemma step_effect i st :
  (cache (self (snd (step i st))) = cache (self st) /\
   forall k, ~ fetched_and_stored k (fst (step i st))) \/
  (exists v,
     cache (self (snd (step i st))) = <[cache_key (i_attribute i) := v]> (cache (self st)) /\
     fetched_and_stored (cache_key (i_attribute i)) (fst (step i st))).
Proof.
  unfold step, fetched_and_stored.
  destruct (call_cases (i_attribute i) (i_arguments i) (i_cache i) st)
    as [(v & _ & Hk & H) | (m & kw & _ & H)]; rewrite H.
  - left. unfold hit_outcome. cbn. split; [done|].
    intros k (_ & rq & response & v' & Hin & _).
    rewrite drop_all in Hin. by apply elem_of_nil in Hin.
  - unfold miss_outcome.
    destruct (gateway _ _) as [[response|e] w]; cbn.
    + destruct (extract (i_attribute i) response) as [v|e] eqn:He; cbn;
        rewrite drop_app_length.
      * right. exists v. split; [done|]. split; [done|].
        eexists _, response, v. split; [apply list_elem_of_singleton; reflexivity | done].
      * left. split; [done|].
        intros k (_ & rq & response' & v' & Hin & Hv).
        apply list_elem_of_singleton in Hin. injection Hin as _ ->.
        rewrite He in Hv. discriminate.
    + left. rewrite drop_app_length. split; [done|].
      intros k (_ & rq & response' & v' & Hin & _).
      apply list_elem_of_singleton in Hin. discriminate.
Qed.

Lemma fetched_and_stored_key k ev :
  fetched_and_stored k ev -> cache_key (i_attribute (e_invocation ev)) = k.
Proof. by intros [? _]. Qed.

Lemma run_cons i h st :
  run (i :: h) st =
  (fst (step i st) :: fst (run h (snd (step i st))), snd (run h (snd (step i st)))).
Proof.
  cbn [run]. destruct (step i st) as [ev st1]. cbn.
  by destruct (run h st1).
Qed.

(** A key is cached after a history exactly when it was cached before or
    some call of the history fetched and stored it. *)
Lemma run_cache h : forall st k,
  is_Some (cache (self (snd (run h st))) !! k) <->
  is_Some (cache (self st) !! k) \/ Exists (fetched_and_stored k) (fst (run h st)).
Proof.
  induction h as [|i h IH]; intros st k.
  - cbn. split; [by left|]. intros [H|H]; [done|]. by apply Exists_nil in H.
  - rewrite run_cons. cbn [fst snd]. rewrite IH, Exists_cons.
    destruct (step_effect i st) as [[Hc Hn] | (v & Hc & Hf)]; rewrite Hc.
    + specialize (Hn k). tauto.
    + destruct (decide (cache_key (i_attribute i) = k)) as [<-|Hne].
      * rewrite lookup_insert_eq. split; [|by eauto]. intros _. right. by left.
      * rewrite lookup_insert_ne by done.
        assert (~ fetched_and_stored k (fst (step i st))).
        { intros Hk. apply fetched_and_stored_key in Hk.
          by rewrite step_invocation in Hk. }
        tauto.
Qed.

(** C4, amended: for an Artist whose cache starts empty, [cache[k]] exists
    after a history of accessor calls if and only if an accessor that caches
    under [k] has been called, with caching enabled or disabled, its remote
    call succeeded and the response held the sub-structure it extracts. *)
Theorem cache_entry_iff_fetched_and_stored h st k :
  cache (self st) = ∅ ->
  is_Some (cache (self (snd (run h st))) !! k) <->
  Exists (fetched_and_stored k) (fst (run h st)).
Proof.
  intros Hempty. rewrite run_cache, Hempty, lookup_empty.
  split; [|by right]. intros [H|H]; [|done]. by destruct H.
Qed.

(** *** The requests of the functions of the module *)

Lemma lookup_if_insert (b : bool) (k' k : string) (v : value) (m : gmap string value) :
  (if b then <[k' := v]> m else m) !! k =
  if String.eqb k k' && b then Some v else m !! k.
Proof.
  destruct (String.eqb_spec k k') as [->|Hne]; destruct b; cbn;
    rewrite ?lookup_insert_eq, ?lookup_insert_ne; done.
Qed.

Lemma if_buckets (buckets : value) (m : gmap string value) :
  (if truthy (py_or buckets (VList []))
   then <["bucket" := py_or buckets (VList [])]> m else m) =
  (if truthy buckets then <["bucket" := buckets]> m else m).
Proof. unfold py_or. by destruct (truthy buckets) eqn:Hb; [rewrite Hb|]. Qed.

(** Case analysis on a request key, one literal at a time. *)
Ltac by_key k :=
  repeat match goal with
    | |- context [String.eqb k ?s] =>
        let E := fresh "E" in
        destruct (String.eqb k s) eqn:E;
        [apply String.eqb_eq in E; subst k; cbn; try reflexivity | cbn]
    end.

(** What follows the remote call in the functions of the module reads the
    response and leaves the network alone. *)
Lemma sent_callm {A : Type} path kwargs (k : value -> M network A) n :
  (forall v n', snd (k v n') = n') ->
  sent (bind (callm path kwargs) k) n = [Callm path kwargs].
Proof.
  intros Hk. unfold sent, bind, callm, invoke.
  destruct (gateway _ _) as [[v|e] w]; cbn; rewrite ?Hk; cbn;
    by rewrite drop_app_length.
Qed.

Lemma adopt_keeps_network (result : value) (n : network) :
  snd ((response <- eval (getitem result "response") ;;
        artists <- eval (getitem response "artists") ;;
        eval (Artists artists)) n) = n.
Proof.
  unfold bind, eval.
  destruct (getitem result "response") as [response|]; [|done].
  by destruct (getitem response "artists").
Qed.

Lemma search_request name description results buckets limit exact sounds_like sort
    max_familiarity min_familiarity max_hotttnesss min_hotttnesss n :
  exists kwargs,
    sent (search name description results buckets limit exact sounds_like sort
            max_familiarity min_familiarity max_hotttnesss min_hotttnesss) n
    = [Callm "artist/search" kwargs] /\
    forall k, kwargs !! k =
              search_params name description results buckets limit exact sounds_like sort
                max_familiarity min_familiarity max_hotttnesss min_hotttnesss k.
Proof.
  unfold search. cbv zeta. rewrite if_buckets.
  eexists. split.
  - apply sent_callm. intros. apply adopt_keeps_network.
  - intros k. rewrite !lookup_if_insert, lookup_empty.
    unfold search_params, when, flag. by_key k. reflexivity.
Qed.

Lemma top_hottt_request start results buckets limit n :
  exists kwargs,
    sent (top_hottt start results buckets limit) n = [Callm "artist/top_hottt" kwargs] /\
    forall k, kwargs !! k = top_hottt_params start results buckets limit k.
Proof.
  unfold top_hottt. cbv zeta. rewrite if_buckets.
  eexists. split.
  - apply sent_callm. intros. apply adopt_keeps_network.
  - intros k. rewrite !lookup_if_insert, lookup_empty.
    unfold top_hottt_params, when, flag. by_key k. reflexivity.
Qed.

Lemma similar_request names ids start results buckets limit
    max_familiarity min_familiarity max_hotttnesss min_hotttnesss n :
  exists kwargs,
    sent (similar names ids start results buckets limit
            max_familiarity min_familiarity max_hotttnesss min_hotttnesss) n
    = [Callm "artist/similar" kwargs] /\
    forall k, kwargs !! k =
              similar_params names ids start results buckets limit
                max_familiarity min_familiarity max_hotttnesss min_hotttnesss k.
Proof.
  unfold similar. cbv zeta. rewrite if_buckets.
  eexists. split.
  - apply sent_callm. intros. apply adopt_keeps_network.
  - intros k. rewrite !lookup_if_insert, lookup_empty.
    unfold similar_params, when, flag, listed. by_key k. reflexivity.
Qed.

Lemma lookup_insert_eqb (k' k : string) (v : value) (m : gmap string value) :
  <[k' := v]> m !! k = if String.eqb k k' then Some v else m !! k.
Proof.
  destruct (String.eqb_spec k k') as [->|Hne];
    rewrite ?lookup_insert_eq, ?lookup_insert_ne; done.
Qed.

Lemma get_similar_request results start c
    max_familiarity min_familiarity max_hotttnesss min_hotttnesss buckets limit st :
  c = false \/ cache (self st) !! "similar" = None ->
  exists kwargs,
    sent_by (get_similar results start c max_familiarity min_familiarity
               max_hotttnesss min_hotttnesss buckets limit) st
    = [GetAttribute (id (self st)) "similar" kwargs] /\
    forall k, kwargs !! k =
              get_similar_params results start max_familiarity min_familiarity
                max_hotttnesss min_hotttnesss buckets limit k.
Proof.
  intros Hmiss.
  assert (Hc : negb (c && match cache (self st) !! "similar" with
                          | Some _ => true | None => false end) = true).
  { destruct Hmiss as [-> | ->]; [reflexivity | by destruct c]. }
  unfold get_similar. cbv zeta. rewrite if_buckets.
  match goal with |- context [get_attribute "similar" ?K] => exists K end.
  split.
  - match goal with |- context [get_attribute "similar" ?K] => generalize K end.
    intros kwargs.
    unfold sent_by, bind, cache_contains. cbn -[Artists]. rewrite Hc.
    unfold get_attribute, invoke, eval, cache_setitem, cache_getitem. cbn -[Artists].
    destruct (gateway _ _) as [[response|e] w]; cbn -[Artists].
    + destruct (getitem response "artists"); cbn -[Artists];
        rewrite ?lookup_insert_eq; cbn -[Artists]; by rewrite drop_app_length.
    + by rewrite drop_app_length.
  - intros k. rewrite !lookup_insert_eqb, !lookup_if_insert, lookup_empty.
    unfold get_similar_params, when, flag. by_key k. reflexivity.
Qed.

Lemma comprehension_Forall2 {A B : Type} (f : A -> result B) l l' :
  comprehension f l = Ok l' -> Forall2 (fun x y => f x = Ok y) l l'.
Proof.
  revert l'. induction l as [|x l IH]; intros l'; cbn.
  - intros [= <-]. constructor.
  - destruct (f x) as [y|] eqn:Hx; [|discriminate].
    destruct (comprehension f l) as [ys|]; [|discriminate].
    intros [= <-]. constructor; [done | by apply IH].
Qed.

(** What [search] does with an answer of the service. *)
Lemma search_outcome name description results buckets limit exact sounds_like sort
    max_familiarity min_familiarity max_hotttnesss min_hotttnesss n rq result :
  calls (snd (search name description results buckets limit exact sounds_like sort
                max_familiarity min_familiarity max_hotttnesss min_hotttnesss n))
  = (calls n ++ [mkCall rq (Ok result)])%list ->
  fst (search name description results buckets limit exact sounds_like sort
         max_familiarity min_familiarity max_hotttnesss min_hotttnesss n)
  = match getitem result "response" with
    | Raise e => Raise e
    | Ok response =>
        match getitem response "artists" with
        | Raise e => Raise e
        | Ok artists => Artists artists
        end
    end.
Proof.
  unfold search. cbv zeta.
  match goal with |- context [callm _ ?K] => generalize K end. intros kwargs.
  unfold bind, callm, invoke, eval.
  destruct (gateway _ _) as [[result'|e] w]; cbn -[Artists].
  - destruct (getitem result' "response") as [response|] eqn:H1; cbn -[Artists].
    + destruct (getitem response "artists") eqn:H2; cbn -[Artists];
        intros Hl; apply app_inv_head in Hl; injection Hl as _ <-;
        by rewrite H1, ?H2.
    + intros Hl. apply app_inv_head in Hl. injection Hl as _ <-. by rewrite H1.
  - intros Hl. apply app_inv_head in Hl. discriminate.
Qed.


(** C6: on a cache miss [get_foreign_id(ns)] makes one remote call, for the
    profile with bucket [["id:" + ns]]; and when the artist structure of the
    response has no entry [ns], the accessor returns [None] without raising
    and [None] is cached under the key [ns]. *)
Theorem foreign_id_absent_is_cached_under_namespace idspace c st :
  c = false \/ cache (self st) !! idspace = None ->
  let rq := GetAttribute (id (self st)) "profile"
              (<["bucket" := VList [VStr ("id:" +:+ idspace)]]> ∅) in
  sent_by (get_foreign_id idspace c) st = [rq] /\
  forall response artist w,
    gateway rq (remote (net st)) = (Ok response, w) ->
    getitem response "artist" = Ok (VDict artist) ->
    artist !! idspace = None ->
    get_foreign_id idspace c st
    = (Ok VNone, stored idspace VNone (logged st rq (Ok response) w)).
Proof.
  intros Hmiss rq.
  assert (Hc : negb (c && match cache (self st) !! idspace with
                          | Some _ => true | None => false end) = true).
  { destruct Hmiss as [-> | ->]; [reflexivity | by destruct c]. }
  unfold get_foreign_id, sent_by, bind, cache_contains. cbn. rewrite Hc.
  unfold get_attribute, invoke, eval, cache_setitem, cache_get. cbn. fold rq.
  destruct (gateway rq (remote (net st))) as [[response|e] w]; cbn.
  - split.
    + destruct (getitem response "artist") as [artist|]; cbn;
        [destruct (get artist idspace); cbn|]; by rewrite drop_app_length.
    + intros ? artist ? [= <- <-] Ha Hns. rewrite Ha. cbn. rewrite Hns. cbn.
      by rewrite lookup_insert_eq.
  - split; [by rewrite drop_app_length | intros ? ? ? [=]].
Qed.

(** C7: in the request of [search], [top_hottt], [similar] and of the
    accessor [get_similar] (which sends one on a cache miss), the entry of a
    flag is the string ["true"] when the flag is true and is absent
    otherwise. *)
Theorem flags_are_sent_as_true_or_not_at_all :
  (forall name description results buckets limit exact sounds_like sort
          max_familiarity min_familiarity max_hotttnesss min_hotttnesss n,
     exists kwargs,
       sent (search name description results buckets limit exact sounds_like sort
               max_familiarity min_familiarity max_hotttnesss min_hotttnesss) n
       = [Callm "artist/search" kwargs] /\
       kwargs !! "limit" = (if truthy limit then Some (VStr "true") else None) /\
       kwargs !! "exact" = (if truthy exact then Some (VStr "true") else None) /\
       kwargs !! "sounds_like" = (if truthy sounds_like then Some (VStr "true") else None)) /\
  (forall start results buckets limit n,
     exists kwargs,
       sent (top_hottt start results buckets limit) n = [Callm "artist/top_hottt" kwargs] /\
       kwargs !! "limit" = (if truthy limit then Some (VStr "true") else None) /\
       kwargs !! "exact" = None /\ kwargs !! "sounds_like" = None) /\
  (forall names ids start results buckets limit
          max_familiarity min_familiarity max_hotttnesss min_hotttnesss n,
     exists kwargs,
       sent (similar names ids start results buckets limit
               max_familiarity min_familiarity max_hotttnesss min_hotttnesss) n
       = [Callm "artist/similar" kwargs] /\
       kwargs !! "limit" = (if truthy limit then Some (VStr "true") else None) /\
       kwargs !! "exact" = None /\ kwargs !! "sounds_like" = None) /\
  (forall results start c max_familiarity min_familiarity max_hotttnesss min_hotttnesss
          buckets limit st,
     c = false \/ cache (self st) !! "similar" = None ->
     exists kwargs,
       sent_by (get_similar results start c max_familiarity min_familiarity
                  max_hotttnesss min_hotttnesss buckets limit) st
       = [GetAttribute (id (self st)) "similar" kwargs] /\
       kwargs !! "limit" = (if truthy limit then Some (VStr "true") else None) /\
       kwargs !! "exact" = None /\ kwargs !! "sounds_like" = None).
Proof.
  repeat split.
  - intros nm description results buckets limit exact sounds_like sort
      max_familiarity min_familiarity max_hotttnesss min_hotttnesss n.
    destruct (search_request nm description results buckets limit exact sounds_like sort
                max_familiarity min_familiarity max_hotttnesss min_hotttnesss n)
      as (kwargs & Hs & Hk).
    exists kwargs. by rewrite !Hk.
  - intros.
    destruct (top_hottt_request start results buckets limit n) as (kwargs & Hs & Hk).
    exists kwargs. by rewrite !Hk.
  - intros.
    destruct (similar_request names ids start results buckets limit
                max_familiarity min_familiarity max_hotttnesss min_hotttnesss n)
      as (kwargs & Hs & Hk).
    exists kwargs. by rewrite !Hk.
  - intros * Hmiss.
    destruct (get_similar_request results start c max_familiarity min_familiarity
                max_hotttnesss min_hotttnesss buckets limit st Hmiss)
      as (kwargs & Hs & Hk).
    exists kwargs. by rewrite !Hk.
Qed.

Lemma listed_singleton (X : string) :
  X <> "" -> listed (VStr X) = listed (VList [VStr X]).
Proof.
  intros HX. unfold listed. cbn.
  destruct (String.eqb_spec X "") as [->|_]; done.
Qed.

(** C8, amended: for every non-empty string [X], [similar(ids=X)] and
    [similar(ids=[X])] send the same request, and likewise for [names]. *)
Theorem similar_scalar_as_singleton X n :
  X <> "" -> ids_scalar_as_list X n /\ names_scalar_as_list X n.
Proof.
  intros HX. split; intros ?; intros.
  - destruct (similar_request names (VStr X) start results buckets limit
                max_familiarity min_familiarity max_hotttnesss min_hotttnesss n)
      as (k1 & -> & H1).
    destruct (similar_request names (VList [VStr X]) start results buckets limit
                max_familiarity min_familiarity max_hotttnesss min_hotttnesss n)
      as (k2 & -> & H2).
    do 2 f_equal. apply map_eq. intros k. rewrite H1, H2.
    unfold similar_params. by rewrite (listed_singleton X HX).
  - destruct (similar_request (VStr X) ids start results buckets limit
                max_familiarity min_familiarity max_hotttnesss min_hotttnesss n)
      as (k1 & -> & H1).
    destruct (similar_request (VList [VStr X]) ids start results buckets limit
                max_familiarity min_familiarity max_hotttnesss min_hotttnesss n)
      as (k2 & -> & H2).
    do 2 f_equal. apply map_eq. intros k. rewrite H1, H2.
    unfold similar_params. by rewrite (listed_singleton X HX).
Qed.

(** C9: a falsy value of a numeric filter ([0], [0.0]) makes [search],
    [similar] and [get_similar] the very computation they are without the
    filter ([None], the default): the same request, the same state after,
    the same result.  And in the one request each of them sends
    ([get_similar] on a cache miss) a filter whose value is falsy has no
    entry at all: the key is absent, no marker is sent in its place. *)
Theorem falsy_filter_is_as_absent v :
  truthy v = false ->
  (forall nm description results buckets limit exact sounds_like sort f1 f2 f3,
     search nm description results buckets limit exact sounds_like sort v f1 f2 f3
     = search nm description results buckets limit exact sounds_like sort VNone f1 f2 f3 /\
     search nm description results buckets limit exact sounds_like sort f1 v f2 f3
     = search nm description results buckets limit exact sounds_like sort f1 VNone f2 f3 /\
     search nm description results buckets limit exact sounds_like sort f1 f2 v f3
     = search nm description results buckets limit exact sounds_like sort f1 f2 VNone f3 /\
     search nm description results buckets limit exact sounds_like sort f1 f2 f3 v
     = search nm description results buckets limit exact sounds_like sort f1 f2 f3 VNone) /\
  (forall names ids start results buckets limit f1 f2 f3,
     similar names ids start results buckets limit v f1 f2 f3
     = similar names ids start results buckets limit VNone f1 f2 f3 /\
     similar names ids start results buckets limit f1 v f2 f3
     = similar names ids start results buckets limit f1 VNone f2 f3 /\
     similar names ids start results buckets limit f1 f2 v f3
     = similar names ids start results buckets limit f1 f2 VNone f3 /\
     similar names ids start results buckets limit f1 f2 f3 v
     = similar names ids start results buckets limit f1 f2 f3 VNone) /\
  (forall results start c buckets limit f1 f2 f3,
     get_similar results start c v f1 f2 f3 buckets limit
     = get_similar results start c VNone f1 f2 f3 buckets limit /\
     get_similar results start c f1 v f2 f3 buckets limit
     = get_similar results start c f1 VNone f2 f3 buckets limit /\
     get_similar results start c f1 f2 v f3 buckets limit
     = get_similar results start c f1 f2 VNone f3 buckets limit /\
     get_similar results start c f1 f2 f3 v buckets limit
     = get_similar results start c f1 f2 f3 VNone buckets limit) /\
  (forall nm description results buckets limit exact sounds_like sort f1 f2 f3 f4 n,
     exists kwargs,
       sent (search nm description results buckets limit exact sounds_like sort
               f1 f2 f3 f4) n
       = [Callm "artist/search" kwargs] /\
       (truthy f1 = false -> kwargs !! "max_familiarity" = None) /\
       (truthy f2 = false -> kwargs !! "min_familiarity" = None) /\
       (truthy f3 = false -> kwargs !! "max_hotttnesss" = None) /\
       (truthy f4 = false -> kwargs !! "min_hotttnesss" = None)) /\
  (forall names ids start results buckets limit f1 f2 f3 f4 n,
     exists kwargs,
       sent (similar names ids start results buckets limit f1 f2 f3 f4) n
       = [Callm "artist/similar" kwargs] /\
       (truthy f1 = false -> kwargs !! "max_familiarity" = None) /\
       (truthy f2 = false -> kwargs !! "min_familiarity" = None) /\
       (truthy f3 = false -> kwargs !! "max_hotttnesss" = None) /\
       (truthy f4 = false -> kwargs !! "min_hotttnesss" = None)) /\
  (forall results start c buckets limit f1 f2 f3 f4 st,
     c = false \/ cache (self st) !! "similar" = None ->
     exists kwargs,
       sent_by (get_similar results start c f1 f2 f3 f4 buckets limit) st
       = [GetAttribute (id (self st)) "similar" kwargs] /\
       (truthy f1 = false -> kwargs !! "max_familiarity" = None) /\
       (truthy f2 = false -> kwargs !! "min_familiarity" = None) /\
       (truthy f3 = false -> kwargs !! "max_hotttnesss" = None) /\
       (truthy f4 = false -> kwargs !! "min_hotttnesss" = None)).
Proof.
  intros Hv.
  split; [|split; [|split; [|split; [|split]]]].
  - repeat split; unfold search; rewrite Hv; reflexivity.
  - repeat split; unfold similar; rewrite Hv; reflexivity.
  - repeat split; unfold get_similar; rewrite Hv; reflexivity.
  - intros nm description results buckets limit exact sounds_like sort f1 f2 f3 f4 n.
    destruct (search_request nm description results buckets limit exact sounds_like sort
                f1 f2 f3 f4 n) as (kwargs & Hs & Hk).
    exists kwargs. split; [done|]. rewrite !Hk. unfold search_params, when. cbn.
    repeat split; by intros ->.
  - intros names ids start results buckets limit f1 f2 f3 f4 n.
    destruct (similar_request names ids start results buckets limit f1 f2 f3 f4 n)
      as (kwargs & Hs & Hk).
    exists kwargs. split; [done|]. rewrite !Hk. unfold similar_params, when. cbn.
    repeat split; by intros ->.
  - intros results start c buckets limit f1 f2 f3 f4 st Hmiss.
    destruct (get_similar_request results start c f1 f2 f3 f4 buckets limit st Hmiss)
      as (kwargs & Hs & Hk).
    exists kwargs. split; [done|]. rewrite !Hk. unfold get_similar_params, when. cbn.
    repeat split; by intros ->.
Qed.

(** C10: [license] takes no part in [get_biographies] and [get_images]: with
    any two values of it the call is the same from every state (same remote
    call, same state after, same result), and the request of a cache miss
    carries [results] and [start] and nothing else. *)
Theorem license_is_ignored results start license1 license2 c st :
  get_biographies results start license1 c st
  = get_biographies results start license2 c st /\
  get_images results start license1 c st
  = get_images results start license2 c st /\
  Forall (fun rq => rq = GetAttribute (id (self st)) "biographies"
                           (<["results" := results]> (<["start" := start]> ∅)))
         (sent_by (get_biographies results start license1 c) st) /\
  Forall (fun rq => rq = GetAttribute (id (self st)) "images"
                           (<["results" := results]> (<["start" := start]> ∅)))
         (sent_by (get_images results start license1 c) st).
Proof.
  split; [reflexivity|]. split; [reflexivity|].
  split.
  - unfold get_biographies, sent_by, bind, cache_contains. cbn -[Results].
    match goal with |- context [get_attribute _ ?K] => generalize K end. intros kwargs.
    destruct (negb _); unfold get_attribute, invoke, eval, ret, cache_setitem, cache_getitem;
      cbn -[Results].
    + destruct (gateway _ _) as [[response|e] w]; cbn -[Results].
      * destruct (getitem response "biographies"); cbn -[Results];
          rewrite ?lookup_insert_eq; cbn -[Results];
          rewrite drop_app_length; by repeat constructor.
      * rewrite drop_app_length. by repeat constructor.
    + destruct (cache (self st) !! "biographies"); cbn -[Results];
        rewrite drop_all; constructor.
  - unfold get_images, sent_by, bind, cache_contains. cbn -[Results].
    match goal with |- context [get_attribute _ ?K] => generalize K end. intros kwargs.
    destruct (negb _); unfold get_attribute, invoke, eval, ret, cache_setitem, cache_getitem;
      cbn -[Results].
    + destruct (gateway _ _) as [[response|e] w]; cbn -[Results].
      * destruct (getitem response "images"); cbn -[Results];
          rewrite ?lookup_insert_eq; cbn -[Results];
          rewrite drop_app_length; by repeat constructor.
      * rewrite drop_app_length. by repeat constructor.
    + destruct (cache (self st) !! "images"); cbn -[Results];
        rewrite drop_all; constructor.
Qed.

(** ** Further properties of the accessors *)

Lemma miss_outcome_calls a rq st :
  calls (net (snd (miss_outcome a rq st)))
  = (calls (net st) ++ [mkCall rq (fst (gateway rq (remote (net st))))])%list.
Proof.
  unfold miss_outcome.
  destruct (gateway _ _) as [[response|e] w]; [|done].
  by destruct (extract a response).
Qed.

Lemma miss_outcome_sent {A : Type} (c : M state A) a rq st :
  calls (net (snd (c st))) = calls (net (snd (miss_outcome a rq st))) ->
  sent_by c st = [rq].
Proof.
  intros H. unfold sent_by. rewrite H, miss_outcome_calls.
  by rewrite drop_app_length.
Qed.

(** A call that misses the cache fetches the method of its attribute, with
    the keyword arguments of its attribute. *)
Lemma call_miss_request a args c st :
  c = false \/ cache (self st) !! cache_key a = None ->
  exists kwargs,
    request_kwargs a args kwargs /\
    call a args c st
    = miss_outcome a (GetAttribute (id (self st)) (request_method a) kwargs) st.
Proof.
  intros Hmiss.
  destruct (call_miss a args c st Hmiss) as (m & kw & Hcall).
  assert (Hsent : sent_by (call a args c) st = [GetAttribute (id (self st)) m kw]).
  { eapply miss_outcome_sent. by rewrite Hcall. }
  destruct a;
    try (exists kw; split; [|rewrite Hcall]; revert Hsent; clear Hcall;
         cbn [cache_key] in Hmiss;
         assert (Hc : negb (c && match cache (self st) !! _ with
                                 | Some _ => true | None => false end) = true)
           by (destruct Hmiss as [-> | ->]; [reflexivity | by destruct c]);
         unfold sent_by; cbn -[Results Artists];
         unfold bind, cache_contains; cbn -[Results Artists]; rewrite Hc;
         unfold get_attribute, invoke, bind, eval, ret, cache_setitem, cache_getitem,
           cache_get;
         cbn -[Results Artists];
         destruct (gateway _ _) as [[response|e] w]; cbn -[Results Artists];
         repeat match goal with
           | |- context [match getitem ?x ?k with _ => _ end] =>
               destruct (getitem x k); cbn -[Results Artists]
           | |- context [match get ?x ?k with _ => _ end] =>
               destruct (get x k); cbn -[Results Artists]
           end;
         rewrite ?lookup_insert_eq; cbn -[Results Artists];
         repeat match goal with
           | |- context [match Results ?k ?x with _ => _ end] =>
               destruct (Results k x); cbn -[Results Artists]
           end;
         rewrite drop_app_length; cbn; intros [= <- <-]; reflexivity).
  (* the similar artists *)
  destruct (get_similar_request (a_results args) (a_start args) c
              (a_max_familiarity args) (a_min_familiarity args)
              (a_max_hotttnesss args) (a_min_hotttnesss args)
              (a_buckets args) (a_limit args) st Hmiss) as (kwargs & Hs & Hk).
  assert (Hsame : sent_by (call Similar args c) st
                  = sent_by (get_similar (a_results args) (a_start args) c
                               (a_max_familiarity args) (a_min_familiarity args)
                               (a_max_hotttnesss args) (a_min_hotttnesss args)
                               (a_buckets args) (a_limit args)) st).
  { unfold sent_by, call, bind, ret.
    by destruct (get_similar _ _ _ _ _ _ _ _ _ st) as [[l|e] st']. }
  rewrite Hsame, Hs in Hsent. injection Hsent as <- <-.
  exists kwargs. split; [exact Hk | exact Hcall].
Qed.

Lemma call_hit_sent a args v st :
  cache (self st) !! cache_key a = Some v ->
  sent_by (call a args true) st = [].
Proof.
  intros Hv. unfold sent_by. rewrite (call_hit a args v st Hv).
  unfold hit_outcome. cbn. by rewrite drop_all.
Qed.

Lemma miss_outcome_frame a rq st :
  id (self (snd (miss_outcome a rq st))) = id (self st) /\
  name (self (snd (miss_outcome a rq st))) = name (self st) /\
  forall k, k <> cache_key a ->
            cache (self (snd (miss_outcome a rq st))) !! k = cache (self st) !! k.
Proof.
  unfold miss_outcome.
  destruct (gateway _ _) as [[response|e] w]; [|done].
  destruct (extract a response); [|done].
  cbn. repeat split. intros k Hk. by rewrite lookup_insert_ne.
Qed.

(** X1: a call of an accessor leaves the identifier and the name of the
    Artist alone, and every cache entry other than the one of its own key. *)
Theorem call_touches_only_its_key a args c st :
  id (self (snd (call a args c st))) = id (self st) /\
  name (self (snd (call a args c st))) = name (self st) /\
  forall k, k <> cache_key a ->
            cache (self (snd (call a args c st))) !! k = cache (self st) !! k.
Proof.
  destruct (call_cases a args c st) as [(v & _ & _ & H) | (m & kw & _ & H)]; rewrite H.
  - done.
  - apply miss_outcome_frame.
Qed.

(** X2: an accessor that finds its key cached, with caching enabled, sends
    nothing; otherwise it sends exactly one request, for the method of its
    attribute ([profile] for a foreign id) with the keyword arguments of its
    attribute: none, or [results] and [start] as given (falsy or not), or
    the id bucket. *)
Theorem accessor_sends_one_request_on_a_miss a args c st :
  (c = true -> is_Some (cache (self st) !! cache_key a) ->
   sent_by (call a args c) st = []) /\
  (c = false \/ cache (self st) !! cache_key a = None ->
   exists kwargs,
     request_kwargs a args kwargs /\
     sent_by (call a args c) st
     = [GetAttribute (id (self st)) (request_method a) kwargs]).
Proof.
  split.
  - intros -> [v Hv]. rewrite (call_hit_sent a args v st Hv). reflexivity.
  - intros Hmiss.
    destruct (call_miss_request a args c st Hmiss) as (kwargs & Hk & Hcall).
    exists kwargs. split; [done|]. eapply miss_outcome_sent. by rewrite Hcall.
Qed.

(** What a call did, read off the log: an answered remote call means the
    call missed the cache and went on from that answer. *)
Lemma call_answered a args c st rq response :
  calls (net (snd (call a args c st)))
  = (calls (net st) ++ [mkCall rq (Ok response)])%list ->
  exists w,
    call a args c st
    = match extract a response with
      | Raise e => (Raise e, logged st rq (Ok response) w)
      | Ok v => (adapt a v, stored (cache_key a) v (logged st rq (Ok response) w))
      end.
Proof.
  destruct (call_cases a args c st) as [(v & _ & _ & H) | (m & kw & _ & H)]; rewrite H.
  - unfold hit_outcome. cbn. intros Hl.
    apply (f_equal length) in Hl. rewrite length_app in Hl. cbn in Hl. lia.
  - unfold miss_outcome.
    destruct (gateway _ _) as [[response'|e] w]; cbn.
    + destruct (extract a response') eqn:He; cbn; intros Hl;
        apply app_inv_head in Hl; injection Hl as <- <-;
        exists w; by rewrite He.
    + intros Hl. apply app_inv_head in Hl. discriminate.
Qed.

(** X3: when the service answers but the response lacks the sub-structure of
    the attribute, the accessor raises the error of the failed look-up and
    the Artist, its cache included, is as it was. *)
Theorem malformed_response_raises_and_keeps_artist a args c st rq response e :
  calls (net (snd (call a args c st)))
  = (calls (net st) ++ [mkCall rq (Ok response)])%list ->
  extract a response = Raise e ->
  fst (call a args c st) = Raise e /\
  self (snd (call a args c st)) = self st.
Proof.
  intros Hl He. destruct (call_answered a args c st rq response Hl) as [w H].
  rewrite H, He. done.
Qed.

(** X4: a raw value that cannot be adapted is cached all the same: the call
    that fetched it raises, and so does every later call with caching
    enabled, with the same exception and without going to the service. *)
Theorem unadaptable_value_is_cached a args c st rq response v e :
  calls (net (snd (call a args c st)))
  = (calls (net st) ++ [mkCall rq (Ok response)])%list ->
  extract a response = Ok v ->
  adapt a v = Raise e ->
  fst (call a args c st) = Raise e /\
  cache (self (snd (call a args c st))) !! cache_key a = Some v /\
  forall args',
    call a args' true (snd (call a args c st)) = (Raise e, snd (call a args c st)).
Proof.
  intros Hl He Ha. destruct (call_answered a args c st rq response Hl) as [w H].
  rewrite H, He, Ha. cbn [fst snd]. split; [done|].
  split; [apply stored_lookup|].
  intros args'. rewrite (call_hit a args' v _ (stored_lookup _ _ _)).
  unfold hit_outcome. by rewrite Ha.
Qed.

(** A call that returns leaves its key cached, and what it returns is the
    adaptation of the cached value. *)
Lemma call_ok_adapts a args c st r st' :
  call a args c st = (Ok r, st') ->
  exists v, cache (self st') !! cache_key a = Some v /\ adapt a v = Ok r.
Proof.
  destruct (call_cases a args c st) as [(v & _ & Hk & H) | (m & kw & _ & H)]; rewrite H.
  - unfold hit_outcome. intros [= Ha <-]. eauto.
  - unfold miss_outcome.
    destruct (gateway _ _) as [[response|e] w]; [|discriminate].
    destruct (extract a response) as [v|e]; [|discriminate].
    intros [= Ha <-]. exists v. split; [apply stored_lookup | done].
Qed.

(** X5: whenever an accessor returns, its key is in the cache afterwards and
    the value returned is the adaptation of the cached raw value. *)
Theorem returned_value_adapts_the_cache a args c st r st' :
  call a args c st = (Ok r, st') ->
  exists v, cache (self st') !! cache_key a = Some v /\ adapt a v = Ok r.
Proof. apply call_ok_adapts. Qed.

(** X6: a list-valued accessor returns one Result per element of the cached
    raw value, in order, each with the kind label of the attribute
    (["biography"], ["image"] and ["review"] in the singular, ["blogs"] and
    ["news"] as they are). *)
Theorem list_accessor_wraps_each_item a args c st r st' label :
  result_label a = Some label ->
  call a args c st = (Ok r, st') ->
  exists v items,
    cache (self st') !! cache_key a = Some v /\
    iter v = Ok items /\
    r = RResults (map (mkResult label) items).
Proof.
  intros Hlabel Hcall.
  destruct (call_ok_adapts a args c st r st' Hcall) as (v & Hv & Ha).
  exists v.
  destruct a; try discriminate; injection Hlabel as <-;
    cbn in Ha; unfold Results in Ha;
    destruct (iter v) as [items|]; try discriminate;
    injection Ha as <-; eauto.
Qed.

(** X7: a cache hit goes by the key alone: once an accessor has returned,
    any accessor with the same key (an attribute and the foreign id of the
    id space of that name, say) is answered from that entry, with no remote
    call. *)
Theorem cache_hit_is_by_key a b args args' c st r st' :
  cache_key a = cache_key b ->
  call a args c st = (Ok r, st') ->
  exists v,
    cache (self st') !! cache_key b = Some v /\
    call b args' true st' = (adapt b v, st') /\
    sent_by (call b args' true) st' = [].
Proof.
  intros Hkey Hcall.
  destruct (call_ok_adapts a args c st r st' Hcall) as (v & Hv & _).
  rewrite Hkey in Hv. exists v. split; [done|]. split.
  - apply (call_hit b args' v st' Hv).
  - apply (call_hit_sent b args' v st' Hv).
Qed.

Lemma step_log i st :
  calls (net (snd (step i st))) = (calls (net st) ++ e_calls (fst (step i st)))%list /\
  (length (e_calls (fst (step i st))) <= 1)%nat.
Proof.
  unfold step.
  destruct (call_cases (i_attribute i) (i_arguments i) (i_cache i) st)
    as [(v & _ & _ & H) | (m & kw & _ & H)]; rewrite H.
  - unfold hit_outcome. cbn. rewrite drop_all, app_nil_r. split; [done | cbn; lia].
  - pose proof (miss_outcome_calls (i_attribute i)
                  (GetAttribute (id (self st)) m kw) st) as Hl.
    destruct (miss_outcome _ _ st) as [r st']. cbn in *.
    rewrite Hl, drop_app_length. split; [done | cbn; lia].
Qed.

Lemma step_frame i st :
  id (self (snd (step i st))) = id (self st) /\
  name (self (snd (step i st))) = name (self st).
Proof.
  pose proof (call_cases (i_attribute i) (i_arguments i) (i_cache i) st) as Hc.
  pose proof (miss_outcome_frame (i_attribute i)) as Hf.
  unfold step.
  destruct Hc as [(v & _ & _ & H) | (m & kw & _ & H)]; rewrite H.
  - done.
  - specialize (Hf (GetAttribute (id (self st)) m kw) st).
    destruct (miss_outcome _ _ st) as [r st']. cbn in *. tauto.
Qed.

(** X8: along any history of accessor calls the identifier and the name of
    the Artist stay the same, no cache entry is ever removed, and the log of
    remote calls only grows: by what each call added, which is at most one
    remote call per accessor call. *)
Theorem history_keeps_identity_and_cached_keys h st :
  id (self (snd (run h st))) = id (self st) /\
  name (self (snd (run h st))) = name (self st) /\
  (forall k, is_Some (cache (self st) !! k) ->
             is_Some (cache (self (snd (run h st))) !! k)) /\
  calls (net (snd (run h st)))
  = (calls (net st) ++ concat (map e_calls (fst (run h st))))%list /\
  Forall (fun ev => (length (e_calls ev) <= 1)%nat) (fst (run h st)) /\
  length (fst (run h st)) = length h.
Proof.
  split; [|split; [|split; [|split; [|split]]]].
  - revert st. induction h as [|i h IH]; intros st; [done|].
    rewrite run_cons. cbn [snd]. rewrite IH. apply step_frame.
  - revert st. induction h as [|i h IH]; intros st; [done|].
    rewrite run_cons. cbn [snd]. rewrite IH. apply step_frame.
  - intros k Hk. apply run_cache. by left.
  - revert st. induction h as [|i h IH]; intros st.
    + cbn. by rewrite app_nil_r.
    + rewrite run_cons. cbn [fst snd map concat]. rewrite IH.
      destruct (step_log i st) as [-> _]. by rewrite <- app_assoc.
  - revert st. induction h as [|i h IH]; intros st; [constructor|].
    rewrite run_cons. cbn [fst]. constructor; [apply step_log | apply IH].
  - revert st. induction h as [|i h IH]; intros st; [done|].
    rewrite run_cons. cbn [fst length]. by rewrite IH.
Qed.

(** ** Further properties of the functions of the module *)

Lemma callm_adopt path kwargs n :
  (result <- callm path kwargs ;;
   response <- eval (getitem result "response") ;;
   artists <- eval (getitem response "artists") ;;
   eval (Artists artists)) n
  = query_outcome path kwargs n.
Proof.
  unfold bind, callm, invoke, eval, query_outcome, adopt.
  destruct (gateway _ _) as [[result|e] w]; [|done].
  destruct (getitem result "response") as [response|]; [|done].
  by destruct (getitem response "artists").
Qed.

(** What a function of the module does: one remote call, with the entries of
    its arguments, and the Artists of the answer. *)
Lemma ask_runs q n :
  exists kwargs,
    (forall k, kwargs !! k = query_params q k) /\
    ask q n = query_outcome (query_path q) kwargs n.
Proof.
  destruct q; cbn [ask query_path query_params].
  - unfold search. cbv zeta. rewrite if_buckets.
    eexists. split; [|apply callm_adopt].
    intros k. rewrite !lookup_if_insert, lookup_empty.
    unfold search_params, when, flag. by_key k. reflexivity.
  - unfold top_hottt. cbv zeta. rewrite if_buckets.
    eexists. split; [|apply callm_adopt].
    intros k. rewrite !lookup_if_insert, lookup_empty.
    unfold top_hottt_params, when, flag. by_key k. reflexivity.
  - unfold similar. cbv zeta. rewrite if_buckets.
    eexists. split; [|apply callm_adopt].
    intros k. rewrite !lookup_if_insert, lookup_empty.
    unfold similar_params, when, flag, listed. by_key k. reflexivity.
Qed.

Lemma query_outcome_answered path kwargs n rq result :
  calls (snd (query_outcome path kwargs n)) = (calls n ++ [mkCall rq (Ok result)])%list ->
  fst (query_outcome path kwargs n) = adopt result.
Proof.
  unfold query_outcome. destruct (gateway _ _) as [[result'|e] w]; cbn;
    intros Hl; apply app_inv_head in Hl; [by injection Hl as _ <- | discriminate].
Qed.

Lemma ask_answered q n result :
  answered (ask q) n result -> fst (ask q n) = adopt result.
Proof.
  intros [rq Hl]. destruct (ask_runs q n) as (kwargs & _ & H).
  rewrite H in *. by eapply query_outcome_answered.
Qed.


(** X10: when the remote call of [search], [top_hottt] or [similar] raises,
    the function raises the same exception. *)
Theorem query_failure_propagates q n e :
  failed (ask q) n e -> fst (ask q n) = Raise e.
Proof.
  intros [rq Hl]. destruct (ask_runs q n) as (kwargs & _ & H).
  rewrite H in *. unfold query_outcome in *.
  destruct (gateway _ _) as [[result|e'] w]; cbn in *;
    apply app_inv_head in Hl; [discriminate | by injection Hl as _ ->].
Qed.

(** X11: an answer that is a dict without ["response"], or whose
    ["response"] is a dict without ["artists"], makes the function raise the
    [KeyError] of the missing key. *)
Theorem query_answer_without_artists_raises_KeyError q n d :
  answered (ask q) n (VDict d) ->
  (d !! "response" = None -> fst (ask q n) = Raise (KeyError "response")) /\
  (forall d', d !! "response" = Some (VDict d') -> d' !! "artists" = None ->
              fst (ask q n) = Raise (KeyError "artists")).
Proof.
  intros Ha. rewrite (ask_answered q n _ Ha). unfold adopt. cbn. split.
  - by intros ->.
  - intros d' -> Hd'. cbn. by rewrite Hd'.
Qed.

Lemma comprehension_app_failure {A B : Type} (f : A -> result B) good bad rest ys e :
  comprehension f good = Ok ys -> f bad = Raise e ->
  comprehension f (good ++ bad :: rest) = Raise e.
Proof.
  revert ys. induction good as [|x good IH]; intros ys; cbn.
  - intros _ ->. done.
  - destruct (f x); [|discriminate].
    destruct (comprehension f good) as [ys'|] eqn:Hg; [|discriminate].
    intros _ Hb. by rewrite (IH ys' eq_refl Hb).
Qed.

Lemma Artist_of_errors :
  (forall v, (forall d, v <> VDict d) -> Artist_of v = Raise AttributeError) /\
  (forall d, d !! "id" = None -> Artist_of (VDict d) = Raise TypeError) /\
  (forall d, is_Some (d !! "self") -> Artist_of (VDict d) = Raise TypeError).
Proof.
  split; [|split].
  - intros v Hv. destruct v; try done. by destruct (Hv d).
  - intros d Hd. unfold Artist_of, Artist_init. cbn. rewrite Hd.
    by destruct (d !! "self").
  - intros d [x Hd]. unfold Artist_of, Artist_init. cbn. by rewrite Hd.
Qed.



(** X14: [similar] sends [ids] (and likewise [names]) as a list: a non-empty
    list as it is, any other truthy value as the one-element list of it, and
    nothing for an empty list or another falsy value. *)
Theorem similar_sends_seeds_as_lists names ids start results buckets limit
    max_familiarity min_familiarity max_hotttnesss min_hotttnesss n :
  exists kwargs,
    sent (similar names ids start results buckets limit
            max_familiarity min_familiarity max_hotttnesss min_hotttnesss) n
    = [Callm "artist/similar" kwargs] /\
    kwargs !! "id" = match ids with
                     | VList [] => None
                     | VList _ => Some ids
                     | v => if truthy v then Some (VList [v]) else None
                     end /\
    kwargs !! "name" = match names with
                       | VList [] => None
                       | VList _ => Some names
                       | v => if truthy v then Some (VList [v]) else None
                       end.
Proof.
  destruct (similar_request names ids start results buckets limit
              max_familiarity min_familiarity max_hotttnesss min_hotttnesss n)
    as (kwargs & Hs & Hk).
  exists kwargs. split; [done|]. rewrite !Hk. unfold similar_params, listed. cbn.
  split.
  - destruct ids as [| | | | |l|]; try reflexivity. by destruct l.
  - destruct names as [| | | | |l|]; try reflexivity. by destruct l.
Qed.

Lemma property_call a p : property a = Some p -> p = call a default_arguments true.
Proof. destruct a; intros [= <-]; reflexivity. Qed.

(** X15: reading an attribute as a property is the accessor with the
    defaults of its [def] line and caching enabled: with the key cached
    (by whatever call, for whatever page) it adapts the cached value and
    makes no remote call, and otherwise it sends one request, with
    [results=15] and [start=0] and nothing else for the list-valued
    attributes and no argument for the others. *)
Theorem property_reads_through_the_cache a p st :
  property a = Some p ->
  (forall v, cache (self st) !! cache_key a = Some v -> p st = (adapt a v, st)) /\
  (cache (self st) !! cache_key a = None ->
   sent_by p st = [GetAttribute (id (self st)) (cache_key a) (property_kwargs a)]).
Proof.
  intros Hp. rewrite (property_call a p Hp). split.
  - intros v Hv. apply (call_hit a default_arguments v st Hv).
  - intros Hnone.
    destruct (call_miss_request a default_arguments true st (or_intror Hnone))
      as (kwargs & Hk & Hcall).
    assert (Hs : sent_by (call a default_arguments true) st
                 = [GetAttribute (id (self st)) (request_method a) kwargs])
      by (eapply miss_outcome_sent; by rewrite Hcall).
    rewrite Hs. do 2 f_equal.
    + by destruct a.
    + destruct a; cbn in Hk; try done.
      apply map_eq. intros k. rewrite Hk.
      cbn [property_kwargs]. rewrite !lookup_insert_eqb, lookup_empty.
      unfold get_similar_params, when, flag. cbn. by_key k. reflexivity.
Qed.

(** X16: a fetch fills one key only: after any call of an accessor, an
    attribute with another key that was not cached is still not cached, and
    its accessor goes to the service for it (the familiarity after the
    hotttnesss, say, although both are read from [response["artist"]]). *)
Theorem other_attribute_is_still_fetched a b args args' c c' st :
  cache_key a <> cache_key b ->
  cache (self st) !! cache_key b = None ->
  cache (self (snd (call a args c st))) !! cache_key b = None /\
  exists kwargs,
    request_kwargs b args' kwargs /\
    sent_by (call b args' c') (snd (call a args c st))
    = [GetAttribute (id (self st)) (request_method b) kwargs].
Proof.
  intros Hne Hb.
  assert (Hframe : id (self (snd (call a args c st))) = id (self st) /\
                   cache (self (snd (call a args c st))) !! cache_key b = None).
  { destruct (call_cases a args c st) as [(v & _ & _ & H) | (m & kw & _ & H)]; rewrite H.
    - done.
    - destruct (miss_outcome_frame a (GetAttribute (id (self st)) m kw) st)
        as (Hid & _ & Hk).
      split; [done|]. rewrite Hk; [done | congruence]. }
  destruct Hframe as [Hid Hnone]. split; [done|].
  destruct (call_miss_request b args' c' _ (or_intror Hnone)) as (kwargs & Hk & Hcall).
  exists kwargs. split; [done|]. rewrite <- Hid.
  eapply miss_outcome_sent. by rewrite Hcall.
Qed.

End ArtistModule.

Arguments calls {W} _.
Arguments remote {W} _.
Arguments mkNetwork {W} _ _.
Arguments self {W} _.
Arguments net {W} _.
Arguments mkState {W} _ _.
Arguments fresh {W} _ _ _.
Arguments logged {W} _ _ _ _.
Arguments stored {W} _ _ _.
Arguments sent {W A} _ _.
Arguments sent_by {W A} _ _.
Arguments call {W} _ _ _ _ _ _.
Arguments run {W} _ _ _ _.
Arguments get_foreign_id {W} _ _ _ _.
Arguments get_similar {W} _ _ _ _ _ _ _ _ _ _ _ _.
Arguments search {W} _ _ _ _ _ _ _ _ _ _ _ _ _ _ _.
Arguments similar {W} _ _ _ _ _ _ _ _ _ _ _ _ _.
Arguments search_call {W} _ _ _ _.
Arguments cache_invariant_as_stated {W} _ _ _ _ _.
Arguments only_supplied_as_stated {W} _ _ _ _.
Arguments ids_scalar_as_list {W} _ _ _ _.
Arguments names_scalar_as_list {W} _ _ _ _.
Arguments ask {W} _ _ _.
Arguments answered {W A} _ _ _.
Arguments failed {W A} _ _ _.
Arguments property {W} _ _ _.

(** ** The properties on the test service *)

(** C1 at work: the similar artists of a new Artist are fetched once; the
    second call, asking for another page, answers from the cache. *)
Lemma second_cached_call_witness :
  let st0 := fresh (VStr "ARH6W4X1187B99274F") (VStr "The National") 0%nat in
  let interpol := {| id := VStr "AR2"; name := VStr "Interpol"; cache := ∅ |} in
  let st1 := snd (call test_service test_ArtistProxy_init Similar default_arguments true st0) in
  let page2 := {| a_results := VInt 15; a_start := VInt 15; a_license := VNone;
                  a_max_familiarity := VNone; a_min_familiarity := VNone;
                  a_max_hotttnesss := VNone; a_min_hotttnesss := VNone;
                  a_buckets := VNone; a_limit := VBool false |} in
  let raw := VList [VDict (<["id" := VStr "AR2"]> {[ "name" := VStr "Interpol" ]})] in
  call test_service test_ArtistProxy_init Similar default_arguments true st0
  = (Ok (RArtists [interpol]), st1) /\
  cache (self st1) !! "similar" = Some raw /\
  adapt test_ArtistProxy_init Similar raw = Ok (RArtists [interpol]) /\
  call test_service test_ArtistProxy_init Similar page2 true st1
  = (Ok (RArtists [interpol]), st1) /\
  sent_by (call test_service test_ArtistProxy_init Similar page2 true) st1 = [].
Proof.
  intros st0 interpol st1 page2 raw.
  assert (H : call test_service test_ArtistProxy_init Similar default_arguments true st0
              = (Ok (RArtists [interpol]), st1)) by (vm_compute; reflexivity).
  split; [exact H|].
  destruct (second_cached_call_makes_no_remote_call nat test_service test_ArtistProxy_init
              Similar default_arguments page2 st0 (RArtists [interpol]) st1 H)
    as (v & Hv & Ha & _ & Hcall & Hsent).
  assert (Hraw : cache (self st1) !! "similar" = Some raw) by (vm_compute; reflexivity).
  change (cache_key Similar) with "similar" in Hv. rewrite Hraw in Hv.
  injection Hv as <-.
  split; [exact Hraw|]. split; [exact Ha|]. split; [exact Hcall | exact Hsent].
Defined.

(** C2 at work: the hotttnesss is cached as 0; a call with [cache=False] goes
    to the service again and writes the new answer, 1, over it. *)
Lemma uncached_call_witness :
  let st0 := fresh (VStr "ARH6W4X1187B99274F") (VStr "The National") 0%nat in
  let st1 := snd (call test_service test_ArtistProxy_init Hotttnesss default_arguments true st0) in
  let st2 := snd (call test_service test_ArtistProxy_init Hotttnesss default_arguments false st1) in
  cache (self st1) !! "hotttnesss" = Some (VInt 0) /\
  length (calls (net st2)) = 2%nat /\
  cache (self st2) !! "hotttnesss" = Some (VInt 1).
Proof.
  intros st0 st1 st2. split; [vm_compute; reflexivity|].
  destruct (uncached_call_refetches_and_overwrites nat test_service test_ArtistProxy_init
              Hotttnesss default_arguments st1) as (rq & reply & Hg & Hl & Hc).
  fold st2 in Hg, Hl, Hc. split.
  - rewrite Hl, length_app. reflexivity.
  - vm_compute. reflexivity.
Defined.

(** C3 at work: the service fails on the audio of a new Artist; the call
    raises that failure and the Artist is as it was. *)
Lemma remote_failure_witness :
  let st0 := fresh (VStr "ARH6W4X1187B99274F") (VStr "The National") 0%nat in
  let rq := GetAttribute (VStr "ARH6W4X1187B99274F") "audio"
              (<["results" := VInt 15]> (<["start" := VInt 0]> ∅)) in
  let out := call test_service test_ArtistProxy_init Audio default_arguments true st0 in
  calls (net (snd out)) = [mkCall rq (Raise (RemoteError "unavailable"))] /\
  fst out = Raise (RemoteError "unavailable") /\
  self (snd out) = self st0.
Proof.
  intros st0 rq out.
  assert (H : calls (net (snd out)) = [mkCall rq (Raise (RemoteError "unavailable"))])
    by (vm_compute; reflexivity).
  split; [exact H|].
  exact (remote_failure_propagates_and_keeps_cache nat test_service test_ArtistProxy_init
           Audio default_arguments true st0 rq (RemoteError "unavailable") H).
Defined.

(** C4 as the specification words it fails: after one successful call of
    [get_hotttnesss(cache=False)] on a new Artist the cache has the entry,
    and no accessor was ever called with caching enabled. *)
Lemma cache_invariant_as_stated_fails :
  ~ cache_invariant_as_stated test_service test_ArtistProxy_init
      [mkInvocation Hotttnesss default_arguments false]
      (fresh (VStr "ARH6W4X1187B99274F") (VStr "The National") 0%nat)
      Hotttnesss.
Proof.
  unfold cache_invariant_as_stated. intros [Hcached _].
  assert (Hex : Exists (fetched_with_caching Hotttnesss)
                  (fst (run test_service test_ArtistProxy_init
                          [mkInvocation Hotttnesss default_arguments false]
                          (fresh (VStr "ARH6W4X1187B99274F") (VStr "The National") 0%nat)))).
  { apply Hcached. vm_compute. eauto. }
  rewrite run_cons in Hex. cbn [fst run] in Hex.
  apply Exists_cons in Hex as [(_ & Hc & _) | Hnil].
  - rewrite step_invocation in Hc. discriminate.
  - by apply Exists_nil in Hnil.
Qed.

(** C4, amended, at work: the same history, in which the one call fetched
    and stored the hotttnesss. *)
Lemma cache_entry_witness :
  let st0 := fresh (VStr "ARH6W4X1187B99274F") (VStr "The National") 0%nat in
  let h := [mkInvocation Hotttnesss default_arguments false] in
  cache (self st0) = ∅ /\
  (is_Some (cache (self (snd (run test_service test_ArtistProxy_init h st0))) !! "hotttnesss")
   <-> Exists (fetched_and_stored "hotttnesss")
         (fst (run test_service test_ArtistProxy_init h st0))).
Proof.
  intros st0 h. split; [reflexivity|].
  exact (cache_entry_iff_fetched_and_stored nat test_service test_ArtistProxy_init
           h st0 "hotttnesss" eq_refl).
Defined.



(** C6 at work: the profile of the test service has no foreign id. *)
Lemma foreign_id_witness :
  let st0 := fresh (VStr "ARH6W4X1187B99274F") (VStr "The National") 0%nat in
  let rq := GetAttribute (VStr "ARH6W4X1187B99274F") "profile"
              (<["bucket" := VList [VStr "id:musicbrainz"]]> ∅) in
  let response := VDict {[ "artist" := VDict {[ "name" := VStr "The National" ]} ]} in
  (true = false \/ cache (self st0) !! "musicbrainz" = None) /\
  sent_by (get_foreign_id test_service "musicbrainz" true) st0 = [rq] /\
  get_foreign_id test_service "musicbrainz" true st0
  = (Ok VNone, stored "musicbrainz" VNone (logged st0 rq (Ok response) 1%nat)).
Proof.
  intros st0 rq response.
  assert (Hmiss : true = false \/ cache (self st0) !! "musicbrainz" = None)
    by (right; reflexivity).
  split; [exact Hmiss|].
  destruct (foreign_id_absent_is_cached_under_namespace nat test_service
              "musicbrainz" true st0 Hmiss) as [Hsent Hout].
  split; [exact Hsent|].
  apply (Hout response {[ "name" := VStr "The National" ]} 1%nat); reflexivity.
Defined.

(** C8 as the specification words it fails at the empty string: as a scalar
    it is falsy and no ["id"] is sent, as [[""]] it is sent. *)
Lemma ids_scalar_as_list_fails_at_empty_string :
  ~ ids_scalar_as_list test_service test_ArtistProxy_init ""
      {| calls := []; remote := 0%nat |}.
Proof.
  intros H.
  specialize (H VNone (VInt 0) (VInt 15) VNone (VBool false) VNone VNone VNone VNone).
  assert (Hid : forall rqs1 rqs2 : list request, rqs1 = rqs2 ->
            match rqs1, rqs2 with
            | [Callm _ k1], [Callm _ k2] => k1 !! "id" = k2 !! "id"
            | _, _ => True
            end).
  { intros ? ? <-. destruct rqs1 as [|[] []]; done. }
  apply Hid in H. vm_compute in H. discriminate.
Qed.

(** C8, amended, at work. *)
Lemma similar_scalar_witness :
  "ARH6W4X1187B99274F" <> "" /\
  ids_scalar_as_list test_service test_ArtistProxy_init "ARH6W4X1187B99274F"
    {| calls := []; remote := 0%nat |} /\
  names_scalar_as_list test_service test_ArtistProxy_init "ARH6W4X1187B99274F"
    {| calls := []; remote := 0%nat |}.
Proof.
  assert (Hne : "ARH6W4X1187B99274F" <> "") by discriminate.
  split; [exact Hne|].
  exact (similar_scalar_as_singleton nat test_service test_ArtistProxy_init
           "ARH6W4X1187B99274F" {| calls := []; remote := 0%nat |} Hne).
Defined.

(** C9 at work: [min_familiarity=0] in [search]: the call is the one without
    the filter, and the request has no entry for it. *)
Lemma falsy_filter_witness :
  let n0 := {| calls := []; remote := 0%nat |} in
  truthy (VInt 0) = false /\
  search test_service test_ArtistProxy_init
    (VStr "the national") VNone (VInt 15) VNone (VBool false) (VBool false) (VBool false)
    VNone VNone (VInt 0) VNone VNone
  = search test_service test_ArtistProxy_init
      (VStr "the national") VNone (VInt 15) VNone (VBool false) (VBool false) (VBool false)
      VNone VNone VNone VNone VNone /\
  exists kwargs,
    sent (search test_service test_ArtistProxy_init
            (VStr "the national") VNone (VInt 15) VNone (VBool false) (VBool false)
            (VBool false) VNone VNone (VInt 0) VNone VNone) n0
    = [Callm "artist/search" kwargs] /\
    kwargs !! "min_familiarity" = None.
Proof.
  intros n0. split; [reflexivity|].
  destruct (falsy_filter_is_as_absent nat test_service test_ArtistProxy_init
              (VInt 0) eq_refl) as (Hsearch & _ & _ & Hsent & _).
  destruct (Hsearch (VStr "the national") VNone (VInt 15) VNone (VBool false)
              (VBool false) (VBool false) VNone VNone VNone VNone) as (_ & H & _).
  split; [exact H|].
  destruct (Hsent (VStr "the national") VNone (VInt 15) VNone (VBool false)
              (VBool false) (VBool false) VNone VNone (VInt 0) VNone VNone n0)
    as (kwargs & Hs & _ & Hmin & _).
  exists kwargs. split; [exact Hs | exact (Hmin eq_refl)].
Defined.

(** ** The further properties on the two services *)

(** X3 at work: the artist structure of the second service has no
    hotttnesss. *)
Lemma malformed_response_witness :
  let st0 := fresh (VStr "ARH6W4X1187B99274F") (VStr "The National") 0%nat in
  let rq := GetAttribute (VStr "ARH6W4X1187B99274F") "hotttnesss" ∅ in
  let response := VDict {[ "artist" := VDict ∅ ]} in
  let out := call odd_service test_ArtistProxy_init Hotttnesss default_arguments true st0 in
  calls (net (snd out)) = [mkCall rq (Ok response)] /\
  extract Hotttnesss response = Raise (KeyError "hotttnesss") /\
  fst out = Raise (KeyError "hotttnesss") /\
  self (snd out) = self st0.
Proof.
  intros st0 rq response out.
  assert (Hl : calls (net (snd out)) = [mkCall rq (Ok response)])
    by (vm_compute; reflexivity).
  assert (He : extract Hotttnesss response = Raise (KeyError "hotttnesss"))
    by (vm_compute; reflexivity).
  split; [exact Hl|]. split; [exact He|].
  exact (malformed_response_raises_and_keeps_artist nat odd_service test_ArtistProxy_init
           Hotttnesss default_arguments true st0 rq response (KeyError "hotttnesss") Hl He).
Defined.

(** X4 at work: the audio of the second service is the number 5. *)
Lemma unadaptable_value_witness :
  let st0 := fresh (VStr "ARH6W4X1187B99274F") (VStr "The National") 0%nat in
  let rq := GetAttribute (VStr "ARH6W4X1187B99274F") "audio"
              (<["results" := VInt 15]> (<["start" := VInt 0]> ∅)) in
  let response := VDict {[ "audio" := VInt 5 ]} in
  let out := call odd_service test_ArtistProxy_init Audio default_arguments true st0 in
  calls (net (snd out)) = [mkCall rq (Ok response)] /\
  fst out = Raise TypeError /\
  cache (self (snd out)) !! "audio" = Some (VInt 5) /\
  call odd_service test_ArtistProxy_init Audio default_arguments true (snd out)
  = (Raise TypeError, snd out).
Proof.
  intros st0 rq response out.
  assert (Hl : calls (net (snd out)) = [mkCall rq (Ok response)])
    by (vm_compute; reflexivity).
  split; [exact Hl|].
  destruct (unadaptable_value_is_cached nat odd_service test_ArtistProxy_init
              Audio default_arguments true st0 rq response (VInt 5) TypeError
              Hl eq_refl eq_refl) as (H1 & H2 & H3).
  split; [exact H1|]. split; [exact H2|]. exact (H3 default_arguments).
Defined.

(** X5 at work: the hotttnesss of the first service. *)
Lemma returned_value_witness :
  let st0 := fresh (VStr "ARH6W4X1187B99274F") (VStr "The National") 0%nat in
  let out := call test_service test_ArtistProxy_init Hotttnesss default_arguments true st0 in
  out = (Ok (RValue (VInt 0)), snd out) /\
  exists v, cache (self (snd out)) !! "hotttnesss" = Some v /\
            adapt test_ArtistProxy_init Hotttnesss v = Ok (RValue (VInt 0)).
Proof.
  intros st0 out.
  assert (H : out = (Ok (RValue (VInt 0)), snd out)) by (vm_compute; reflexivity).
  split; [exact H|].
  exact (returned_value_adapts_the_cache nat test_service test_ArtistProxy_init
           Hotttnesss default_arguments true st0 (RValue (VInt 0)) (snd out) H).
Defined.

(** X6 at work: the two reviews of the second service. *)
Lemma list_accessor_witness :
  let st0 := fresh (VStr "ARH6W4X1187B99274F") (VStr "The National") 0%nat in
  let out := call odd_service test_ArtistProxy_init Reviews default_arguments true st0 in
  let r := RResults [mkResult "review" (VDict {[ "url" := VStr "u1" ]});
                     mkResult "review" (VDict {[ "url" := VStr "u2" ]})] in
  result_label Reviews = Some "review" /\
  out = (Ok r, snd out) /\
  exists v items,
    cache (self (snd out)) !! "reviews" = Some v /\
    iter v = Ok items /\
    r = RResults (map (mkResult "review") items).
Proof.
  intros st0 out r.
  assert (H : out = (Ok r, snd out)) by (vm_compute; reflexivity).
  split; [reflexivity|]. split; [exact H|].
  exact (list_accessor_wraps_each_item nat odd_service test_ArtistProxy_init
           Reviews default_arguments true st0 r (snd out) "review" eq_refl H).
Defined.

(** X7 at work: the profile of the second service has an entry ["audio"];
    asked for as a foreign id it lands in the cache under ["audio"], and
    [get_audio] then answers from it. *)
Lemma cache_hit_by_key_witness :
  let st0 := fresh (VStr "ARH6W4X1187B99274F") (VStr "The National") 0%nat in
  let raw := VList [VDict {[ "url" := VStr "u3" ]}] in
  let out := call odd_service test_ArtistProxy_init (ForeignId "audio")
               default_arguments true st0 in
  cache_key (ForeignId "audio") = cache_key Audio /\
  out = (Ok (RValue raw), snd out) /\
  call odd_service test_ArtistProxy_init Audio default_arguments true (snd out)
  = (Ok (RResults [mkResult "audio" (VDict {[ "url" := VStr "u3" ]})]), snd out) /\
  sent_by (call odd_service test_ArtistProxy_init Audio default_arguments true) (snd out)
  = [].
Proof.
  intros st0 raw out.
  assert (H : out = (Ok (RValue raw), snd out)) by (vm_compute; reflexivity).
  split; [reflexivity|]. split; [exact H|].
  destruct (cache_hit_is_by_key nat odd_service test_ArtistProxy_init
              (ForeignId "audio") Audio default_arguments default_arguments true st0
              (RValue raw) (snd out) eq_refl H) as (v & Hv & Hcall & Hsent).
  split; [|exact Hsent].
  rewrite Hcall. vm_compute in Hv. injection Hv as <-. reflexivity.
Defined.

(** X10 at work: the first service has no top artists to give. *)
Lemma query_failure_witness :
  let n0 := {| calls := []; remote := 0%nat |} in
  let q := QTopHottt (VInt 0) (VInt 15) VNone (VBool false) in
  failed (ask test_service test_ArtistProxy_init q) n0 (RemoteError "unavailable") /\
  fst (ask test_service test_ArtistProxy_init q n0) = Raise (RemoteError "unavailable").
Proof.
  intros n0 q.
  assert (H : failed (ask test_service test_ArtistProxy_init q) n0
                (RemoteError "unavailable")).
  { exists (Callm "artist/top_hottt" (<["results" := VInt 15]> ∅)).
    vm_compute. reflexivity. }
  split; [exact H|].
  exact (query_failure_propagates nat test_service test_ArtistProxy_init q n0 _ H).
Defined.

(** X11 at work: the similarity answer of the second service has a
    ["response"] without ["artists"]. *)
Lemma query_missing_key_witness :
  let n0 := {| calls := []; remote := 0%nat |} in
  let q := QSimilar VNone (VStr "ARH6W4X1187B99274F") (VInt 0) (VInt 15) VNone (VBool false)
             VNone VNone VNone VNone in
  let d : gmap string value := {[ "response" := VDict ∅ ]} in
  answered (ask odd_service test_ArtistProxy_init q) n0 (VDict d) /\
  fst (ask odd_service test_ArtistProxy_init q n0) = Raise (KeyError "artists").
Proof.
  intros n0 q d.
  assert (H : answered (ask odd_service test_ArtistProxy_init q) n0 (VDict d)).
  { exists (Callm "artist/similar"
              (<["id" := VList [VStr "ARH6W4X1187B99274F"]]> (<["results" := VInt 15]> ∅))).
    vm_compute. reflexivity. }
  split; [exact H|].
  destruct (query_answer_without_artists_raises_KeyError nat odd_service
              test_ArtistProxy_init q n0 d H) as [_ Hartists].
  exact (Hartists ∅ eq_refl eq_refl).
Defined.



(** X15 at work: reading [similar] on a new Artist asks for the first
    fifteen. *)
Lemma property_witness :
  let st0 := fresh (VStr "ARH6W4X1187B99274F") (VStr "The National") 0%nat in
  exists p,
    property test_service test_ArtistProxy_init Similar = Some p /\
    sent_by p st0
    = [GetAttribute (VStr "ARH6W4X1187B99274F") "similar"
         (<["results" := VInt 15]> (<["start" := VInt 0]> ∅))].
Proof.
  intros st0. eexists. split; [reflexivity|].
  destruct (property_reads_through_the_cache nat test_service test_ArtistProxy_init
              Similar _ st0 eq_refl) as [_ Hmiss].
  exact (Hmiss eq_refl).
Defined.

(** X16 at work: the familiarity after the hotttnesss. *)
Lemma other_attribute_witness :
  let st0 := fresh (VStr "ARH6W4X1187B99274F") (VStr "The National") 0%nat in
  let st1 := snd (call test_service test_ArtistProxy_init Hotttnesss default_arguments true st0) in
  cache_key Hotttnesss <> cache_key Familiarity /\
  cache (self st0) !! cache_key Familiarity = None /\
  cache (self st1) !! "hotttnesss" = Some (VInt 0) /\
  cache (self st1) !! "familiarity" = None /\
  sent_by (call test_service test_ArtistProxy_init Familiarity default_arguments true) st1
  = [GetAttribute (VStr "ARH6W4X1187B99274F") "familiarity" ∅].
Proof.
  intros st0 st1.
  assert (Hne : cache_key Hotttnesss <> cache_key Familiarity) by discriminate.
  split; [exact Hne|]. split; [reflexivity|]. split; [vm_compute; reflexivity|].
  destruct (other_attribute_is_still_fetched nat test_service test_ArtistProxy_init
              Hotttnesss Familiarity default_arguments default_arguments true true st0
              Hne eq_refl) as (Hnone & kwargs & Hk & Hsent).
  split; [exact Hnone|]. cbn in Hk. subst kwargs. exact Hsent.
Defined.

(** The artist of the third service has a raw field ["self"], a second
    value for the parameter [self] of [__init__]: [search] raises, after its
    one remote call. *)
Example search_raises_on_item_named_self :
  let n0 := {| calls := []; remote := 0%nat |} in
  let out := search self_service test_ArtistProxy_init
               (VStr "the national") VNone (VInt 15) VNone (VBool false) (VBool false)
               (VBool false) VNone VNone VNone VNone VNone n0 in
  fst out = Raise TypeError /\ length (calls (snd out)) = 1%nat.
Proof. split; vm_compute; reflexivity. Qed.
